(** * livemarketdata: the client-side snapshot reconciler and connection tracker

    A shallow embedding of
    - [frontend/src/components/MarketDataTable.js] (the [useEffect] that
      rebuilds the table rows from every incoming snapshot),
    - [frontend/src/App.js] (the socket event handlers and the manual
      reconnect), and
    - [frontend/src/components/ConnectionStatus.js] (the status modal),
    followed by the properties of the specification, each proved or
    refuted on these definitions. *)

From Stdlib Require Import ZArith String Ascii Bool List.
From Stdlib Require Import SpecFloat.
From stdpp Require Import gmap strings.

Local Open Scope Z_scope.

(** ** The fragment of JavaScript the code relies on

    Numbers are IEEE 754 binary64 values, given by the Standard Library's
    executable specification [spec_float] at precision 53 and maximal
    exponent 1024.  Field values of a quote are the primitive values a
    JSON payload can carry, with [undefined] for a missing property.  A
    character of a [string] stands for one UTF-16 code unit below 256. *)
Module JS.

Definition number : Type := spec_float.

Definition prec : Z := 53.
Definition emax : Z := 1024.

Definition NaN : number := S754_nan.
Definition pos_zero : number := S754_zero false.
Definition of_Z (n : Z) : number := binary_normalize prec emax n 0 false.

Definition nsub : number -> number -> number := SFsub prec emax.
Definition nmul : number -> number -> number := SFmul prec emax.
Definition ndiv : number -> number -> number := SFdiv prec emax.
Definition nltb : number -> number -> bool := SFltb.
Definition neqb : number -> number -> bool := SFeqb.

Definition is_nan (n : number) : bool :=
  match n with S754_nan => true | _ => false end.

Definition is_zero (n : number) : bool :=
  match n with S754_zero _ => true | _ => false end.

(** *** StringToNumber *)

(** The value [m * 10^e], rounded to the nearest binary64 number (ties to
    even).  For a negative [e] the quotient is computed with more than 64
    significant bits and one sticky bit below them. *)
Definition decimal_to_number (neg : bool) (m e : Z) : number :=
  if m =? 0 then S754_zero neg
  else
    let sg (z : Z) := if neg then Z.opp z else z in
    if 0 <=? e then binary_normalize prec emax (sg (m * 10 ^ e)) 0 false
    else
      let d := 10 ^ (- e) in
      let s := Z.log2 d + 66 in
      let q := (m * 2 ^ s) / d in
      let sticky := if (m * 2 ^ s) mod d =? 0 then 0 else 1 in
      binary_normalize prec emax (sg (2 * q + sticky)) (- (s + 1)) false.

Definition is_white_space (c : ascii) : bool :=
  let n := N_of_ascii c in
  ((9 <=? n) && (n <=? 13) || (n =? 32) || (n =? 160))%N.

Fixpoint trim_left (l : list ascii) : list ascii :=
  match l with
  | c :: l' => if is_white_space c then trim_left l' else l
  | [] => []
  end.

Definition trim (l : list ascii) : list ascii :=
  rev (trim_left (rev (trim_left l))).

Definition digit_value (base : Z) (c : ascii) : option Z :=
  let n := Z.of_N (N_of_ascii c) in
  let v :=
    if (48 <=? n) && (n <=? 57) then n - 48
    else if (97 <=? n) && (n <=? 122) then n - 87
    else if (65 <=? n) && (n <=? 90) then n - 55
    else 36 in
  if v <? base then Some v else None.

(** Reads the longest prefix of digits of [base], continuing the value
    [acc]; returns the value, the number of digits read and the rest. *)
Fixpoint take_digits (base acc : Z) (count : Z) (l : list ascii)
  : Z * Z * list ascii :=
  match l with
  | c :: l' =>
      match digit_value base c with
      | Some v => take_digits base (acc * base + v) (count + 1) l'
      | None => (acc, count, l)
      end
  | [] => (acc, count, l)
  end.

Definition take_sign (l : list ascii) : bool * list ascii :=
  match l with
  | "+"%char :: l' => (false, l')
  | "-"%char :: l' => (true, l')
  | _ => (false, l)
  end.

(** ExponentPart (optional): [e] or [E], an optional sign and at least
    one digit, up to the end of the literal. *)
Definition exponent_part (l : list ascii) : option Z :=
  match l with
  | [] => Some 0
  | c :: l' =>
      if (Ascii.eqb c "e" || Ascii.eqb c "E")%bool then
        let '(neg, l1) := take_sign l' in
        match take_digits 10 0 0 l1 with
        | (x, n, []) =>
            if 0 <? n then Some (if neg then - x else x) else None
        | _ => None
        end
      else None
  end.

(** StrUnsignedDecimalLiteral without [Infinity]: mantissa and decimal
    exponent. *)
Definition unsigned_decimal (l : list ascii) : option (Z * Z) :=
  let '(m1, n1, r1) := take_digits 10 0 0 l in
  let '(m, n2, r2) :=
    match r1 with
    | "."%char :: r => take_digits 10 m1 0 r
    | _ => (m1, 0, r1)
    end in
  if 0 <? n1 + n2 then
    match exponent_part r2 with
    | Some x => Some (m, x - n2)
    | None => None
    end
  else None.

Definition non_decimal_integer (l : list ascii) : option Z :=
  match l with
  | "0"%char :: c :: l' =>
      let base :=
        if (Ascii.eqb c "x" || Ascii.eqb c "X")%bool then 16
        else if (Ascii.eqb c "o" || Ascii.eqb c "O")%bool then 8
        else if (Ascii.eqb c "b" || Ascii.eqb c "B")%bool then 2
        else 0 in
      match take_digits base 0 0 l' with
      | (v, n, []) => if 0 <? n then Some v else None
      | _ => None
      end
  | _ => None
  end.

Definition StringToNumber (s : string) : number :=
  let l := trim (list_ascii_of_string s) in
  match l with
  | [] => pos_zero
  | _ =>
      match non_decimal_integer l with
      | Some v => of_Z v
      | None =>
          let '(neg, l') := take_sign l in
          if String.eqb (string_of_list_ascii l') "Infinity"
          then S754_infinity neg
          else
            match unsigned_decimal l' with
            | Some (m, e) => decimal_to_number neg m e
            | None => NaN
            end
      end
  end.

(** *** Values *)

Inductive value : Type :=
| undefined
| null
| boolean (b : bool)
| num (n : number)
| str (s : string).

Definition ToNumber (v : value) : number :=
  match v with
  | undefined => NaN
  | null => pos_zero
  | boolean b => if b then of_Z 1 else pos_zero
  | num n => n
  | str s => StringToNumber s
  end.

Definition ToBoolean (v : value) : bool :=
  match v with
  | undefined | null => false
  | boolean b => b
  | num n => negb (is_zero n || is_nan n)
  | str s => negb (String.eqb s "")
  end.

(** [typeof v === 'number'] *)
Definition typeof_number (v : value) : bool :=
  match v with num _ => true | _ => false end.

(** [a === b] *)
Definition strict_eq (a b : value) : bool :=
  match a, b with
  | undefined, undefined => true
  | null, null => true
  | boolean x, boolean y => Bool.eqb x y
  | num x, num y => neqb x y
  | str x, str y => String.eqb x y
  | _, _ => false
  end.

(** [a < b]: two strings are compared by code units, anything else as
    numbers, and a comparison with [NaN] is false. *)
Definition lt (a b : value) : bool :=
  match a, b with
  | str x, str y => String.ltb x y
  | _, _ => nltb (ToNumber a) (ToNumber b)
  end.

(** [a > b] *)
Definition gt (a b : value) : bool := lt b a.

(** [a - b], [a / b], [a * b] *)
Definition sub (a b : value) : number := nsub (ToNumber a) (ToNumber b).
Definition div (a b : value) : number := ndiv (ToNumber a) (ToNumber b).
Definition mul (a b : value) : number := nmul (ToNumber a) (ToNumber b).

(** [a || b] *)
Definition or (a b : value) : value := if ToBoolean a then a else b.

(** The number a decimal literal denotes (the same number whether it is read
    from source text or converted from a string). *)
Definition literal (s : string) : value := num (StringToNumber s).

End JS.

(** ** MarketDataTable.js: the reconciliation effect *)

Inductive Signal : Type := BUY | SELL | HOLD.

Inductive Direction : Type := up | down.

(** The keys of the [changes] object. *)
Module Field.
Inductive t : Type := ltp | open | high | low | close | volume.

Definition all : list t := [ltp; open; high; low; close; volume].
End Field.

Definition Signal_eqb (a b : Signal) : bool :=
  match a, b with
  | BUY, BUY | SELL, SELL | HOLD, HOLD => true
  | _, _ => false
  end.

(** A raw quote of the incoming snapshot ([item]); a missing property reads
    as [JS.undefined].  The quote itself is there: the effect reads its
    properties unguarded, which throws only for a [null] or [undefined]
    quote (see [reconcile_payload] for snapshots that hold such quotes). *)
Module Item.
Record t : Type := mk {
  symbol : JS.value;
  ltp : JS.value;
  open : JS.value;
  high : JS.value;
  low : JS.value;
  close : JS.value;
  volume : JS.value;
  timestamp : JS.value;
}.

Definition get (f : Field.t) (i : t) : JS.value :=
  match f with
  | Field.ltp => ltp i
  | Field.open => open i
  | Field.high => high i
  | Field.low => low i
  | Field.close => close i
  | Field.volume => volume i
  end.
End Item.

(** An entry of [processedData]. *)
Module Row.
Record t : Type := mk {
  symbol : JS.value;
  ltp : JS.number;
  open : JS.number;
  high : JS.number;
  low : JS.number;
  close : JS.number;
  volume : JS.number;
  change : JS.number;
  change_percent : JS.number;
  trading_signal : Signal;
  timestamp : JS.value;
  ltp_changed : bool;
  open_changed : bool;
  high_changed : bool;
  low_changed : bool;
  close_changed : bool;
  volume_changed : bool;
  signal_changed : bool;
  ltp_direction : option Direction;
  open_direction : option Direction;
  high_direction : option Direction;
  low_direction : option Direction;
  close_direction : option Direction;
  volume_direction : option Direction;
  prev_ltp : JS.number;
  prev_open : JS.number;
  prev_high : JS.number;
  prev_low : JS.number;
  prev_close : JS.number;
  prev_volume : JS.number;
}.

Definition get (f : Field.t) (r : t) : JS.number :=
  match f with
  | Field.ltp => ltp r
  | Field.open => open r
  | Field.high => high r
  | Field.low => low r
  | Field.close => close r
  | Field.volume => volume r
  end.

Definition changed (f : Field.t) (r : t) : bool :=
  match f with
  | Field.ltp => ltp_changed r
  | Field.open => open_changed r
  | Field.high => high_changed r
  | Field.low => low_changed r
  | Field.close => close_changed r
  | Field.volume => volume_changed r
  end.

Definition direction (f : Field.t) (r : t) : option Direction :=
  match f with
  | Field.ltp => ltp_direction r
  | Field.open => open_direction r
  | Field.high => high_direction r
  | Field.low => low_direction r
  | Field.close => close_direction r
  | Field.volume => volume_direction r
  end.

Definition prev (f : Field.t) (r : t) : JS.number :=
  match f with
  | Field.ltp => prev_ltp r
  | Field.open => prev_open r
  | Field.high => prev_high r
  | Field.low => prev_low r
  | Field.close => prev_close r
  | Field.volume => prev_volume r
  end.
End Row.

(** [prevItem.<field>] where [prevItem = prevDataRef.current[key] || {}]:
    the stored number, or [undefined] when the key has no entry. *)
Definition prevItem_get (f : Field.t) (prevItem : option Row.t) : JS.value :=
  match prevItem with
  | Some r => JS.num (Row.get f r)
  | None => JS.undefined
  end.

(** The body of the loop over [Object.entries(changes)]. *)
Definition processChange (value prev : JS.value) : bool * option Direction :=
  let changed := negb (JS.strict_eq value prev) in
  let direction :=
    if changed then Some (if JS.gt value prev then up else down) else None in
  (changed, direction).

Definition processedChanges (f : Field.t) (item : Item.t)
    (prevItem : option Row.t) : bool * option Direction :=
  processChange (Item.get f item) (prevItem_get f prevItem).

(** [change], [change_percent] and the signal, all from the raw item. *)
Definition change_of (ltp close : JS.value) : JS.number := JS.sub ltp close.

Definition change_percent_of (ltp close : JS.value) : JS.number :=
  JS.mul (JS.num (JS.div (JS.num (change_of ltp close)) close))
         (JS.num (JS.of_Z 100)).

Definition volatility_of (high low close : JS.value) : JS.number :=
  JS.mul (JS.num (JS.div (JS.num (JS.sub high low)) close))
         (JS.num (JS.of_Z 100)).

Definition shortTermTrend (ltp close : JS.value) : Direction :=
  if JS.gt ltp close then up else down.

Definition Direction_eqb (a b : Direction) : bool :=
  match a, b with
  | up, up | down, down => true
  | _, _ => false
  end.

Definition trading_signal_of (ltp close high low : JS.value) : Signal :=
  let change_percent := change_percent_of ltp close in
  let trend := shortTermTrend ltp close in
  let volatility := volatility_of high low close in
  if Direction_eqb trend up
     && JS.gt (JS.num change_percent) (JS.num (JS.of_Z 1))
     && JS.lt (JS.num volatility) (JS.num (JS.of_Z 5))
  then BUY
  else if Direction_eqb trend down
          && JS.lt (JS.num change_percent) (JS.num (JS.of_Z (-1)))
          && JS.lt (JS.num volatility) (JS.num (JS.of_Z 5))
  then SELL
  else HOLD.

(** [typeof v === 'number' ? v : 0] *)
Definition number_or_zero (v : JS.value) : JS.number :=
  if JS.typeof_number v then JS.ToNumber v else JS.pos_zero.

(** [prevItem.<field> || 0] *)
Definition prev_or_zero (f : Field.t) (prevItem : option Row.t) : JS.number :=
  JS.ToNumber (JS.or (prevItem_get f prevItem) (JS.num JS.pos_zero)).

(** [prevItem.trading_signal !== trading_signal] *)
Definition signal_differs (prevItem : option Row.t) (s : Signal) : bool :=
  match prevItem with
  | Some r => negb (Signal_eqb (Row.trading_signal r) s)
  | None => true
  end.

(** One iteration of [Object.entries(marketData).forEach]; [now] is what
    [new Date().toISOString()] returns when it is called. *)
Definition processItem (now : string) (prevItem : option Row.t)
    (item : Item.t) : Row.t :=
  let pc f := processedChanges f item prevItem in
  let change := change_of (Item.ltp item) (Item.close item) in
  let change_percent := change_percent_of (Item.ltp item) (Item.close item) in
  let trading_signal :=
    trading_signal_of (Item.ltp item) (Item.close item)
                      (Item.high item) (Item.low item) in
  let signal_changed := signal_differs prevItem trading_signal in
  {| Row.symbol := JS.or (Item.symbol item) (JS.str "UNKNOWN");
     Row.ltp := number_or_zero (Item.ltp item);
     Row.open := number_or_zero (Item.open item);
     Row.high := number_or_zero (Item.high item);
     Row.low := number_or_zero (Item.low item);
     Row.close := number_or_zero (Item.close item);
     Row.volume := number_or_zero (Item.volume item);
     Row.change := change;
     Row.change_percent := change_percent;
     Row.trading_signal := trading_signal;
     Row.timestamp := JS.or (Item.timestamp item) (JS.str now);
     Row.ltp_changed := fst (pc Field.ltp);
     Row.open_changed := fst (pc Field.open);
     Row.high_changed := fst (pc Field.high);
     Row.low_changed := fst (pc Field.low);
     Row.close_changed := fst (pc Field.close);
     Row.volume_changed := fst (pc Field.volume);
     Row.signal_changed := signal_changed;
     Row.ltp_direction := snd (pc Field.ltp);
     Row.open_direction := snd (pc Field.open);
     Row.high_direction := snd (pc Field.high);
     Row.low_direction := snd (pc Field.low);
     Row.close_direction := snd (pc Field.close);
     Row.volume_direction := snd (pc Field.volume);
     Row.prev_ltp := prev_or_zero Field.ltp prevItem;
     Row.prev_open := prev_or_zero Field.open prevItem;
     Row.prev_high := prev_or_zero Field.high prevItem;
     Row.prev_low := prev_or_zero Field.low prevItem;
     Row.prev_close := prev_or_zero Field.close prevItem;
     Row.prev_volume := prev_or_zero Field.volume prevItem |}.

(** The state the effect works on: the [dataWithDefaults] state variable
    and the [prevDataRef.current] cell.  An object used as a map is a finite
    map from its own property names to rows. *)
Record TableState : Type := {
  dataWithDefaults : gmap string Row.t;
  prevDataRef : gmap string Row.t;
}.

Definition initialTable : TableState :=
  {| dataWithDefaults := ∅; prevDataRef := ∅ |}.

(** [processedData] after the loop.  [clock key] is the reading of the
    clock while the entry of [key] is processed. *)
Definition processedData (clock : string -> string)
    (prev : gmap string Row.t) (marketData : gmap string Item.t)
  : gmap string Row.t :=
  map_imap (fun key item => Some (processItem (clock key) (prev !! key) item))
           marketData.

(** The effect run for a new [marketData] prop; [None] is a [null] or
    [undefined] prop. *)
Definition reconcile (clock : string -> string) (st : TableState)
    (marketData : option (gmap string Item.t)) : TableState :=
  match marketData with
  | None => st
  | Some md =>
      if decide (md = ∅) then st
      else
        let processed := processedData clock (prevDataRef st) md in
        {| dataWithDefaults := processed; prevDataRef := processed |}
  end.

(** ** App.js: the connection state and its handlers

    The four state variables the connection logic reads and writes
    ([marketData] and [lastUpdate] play no part in it). *)
Record AppState : Type := {
  isConnected : bool;
  showConnectionModal : bool;
  isAttemptingReconnect : bool;
  serverIssueDetected : bool;
}.

(** The [useState] defaults. *)
Definition initialApp : AppState :=
  {| isConnected := false;
     showConnectionModal := true;
     isAttemptingReconnect := false;
     serverIssueDetected := false |}.

Definition setIsConnected (b : bool) (s : AppState) : AppState :=
  {| isConnected := b;
     showConnectionModal := showConnectionModal s;
     isAttemptingReconnect := isAttemptingReconnect s;
     serverIssueDetected := serverIssueDetected s |}.

Definition setShowConnectionModal (b : bool) (s : AppState) : AppState :=
  {| isConnected := isConnected s;
     showConnectionModal := b;
     isAttemptingReconnect := isAttemptingReconnect s;
     serverIssueDetected := serverIssueDetected s |}.

Definition setIsAttemptingReconnect (b : bool) (s : AppState) : AppState :=
  {| isConnected := isConnected s;
     showConnectionModal := showConnectionModal s;
     isAttemptingReconnect := b;
     serverIssueDetected := serverIssueDetected s |}.

Definition setServerIssueDetected (b : bool) (s : AppState) : AppState :=
  {| isConnected := isConnected s;
     showConnectionModal := showConnectionModal s;
     isAttemptingReconnect := isAttemptingReconnect s;
     serverIssueDetected := b |}.

(** Calls made on the module-level [socket]. *)
Inductive Command : Type :=
| socket_disconnect
| socket_off
| socket_io          (* [socket = io(socketUrl, ...)] and the [socket.on] calls *)
| socket_connect.

(** The module-level [socket] as a handler sees it: [None] while it is
    [undefined], otherwise the value of [socket.connected]. *)
Definition Socket : Type := option bool.

Definition connectSocket (socket : Socket) (s : AppState)
  : AppState * list Command :=
  let c1 := match socket with Some true => [socket_disconnect] | _ => [] end in
  let c2 := match socket with Some _ => [socket_off] | None => [] end in
  let s := setShowConnectionModal true s in
  let s := setIsAttemptingReconnect true s in
  (s, c1 ++ c2 ++ [socket_io; socket_connect]).

(** [socket.on('connect', ...)] *)
Definition on_connect (s : AppState) : AppState :=
  let s := setIsConnected true s in
  let s := setShowConnectionModal false s in
  let s := setIsAttemptingReconnect false s in
  setServerIssueDetected false s.

(** [socket.on('disconnect', (reason) => ...)] *)
Definition on_disconnect (reason : string) (s : AppState) : AppState :=
  let s := setIsConnected false s in
  let s := setShowConnectionModal true s in
  if String.eqb reason "io client disconnect" then
    let s := setIsAttemptingReconnect false s in
    setServerIssueDetected false s
  else
    let s := setIsAttemptingReconnect true s in
    if String.eqb reason "transport error" || String.eqb reason "ping timeout"
    then setServerIssueDetected true s
    else s.

(** [socket.on('connect_error', ...)] *)
Definition on_connect_error (s : AppState) : AppState :=
  let s := setIsConnected false s in
  let s := setShowConnectionModal true s in
  let s := setIsAttemptingReconnect true s in
  setServerIssueDetected true s.

(** [socket.on('reconnect_attempt', ...)] *)
Definition on_reconnect_attempt (s : AppState) : AppState :=
  let s := setIsAttemptingReconnect true s in
  setShowConnectionModal true s.

(** [socket.on('reconnect_failed', ...)] *)
Definition on_reconnect_failed (s : AppState) : AppState :=
  let s := setIsAttemptingReconnect false s in
  setServerIssueDetected true s.

(** [socket.on('market_data', (data) => ...)]; [valid] is the truth value
    of [data && data.data]. *)
Definition on_market_data (valid : bool) (s : AppState) : AppState :=
  if valid then
    let s := setIsConnected true s in
    let s := setShowConnectionModal false s in
    setIsAttemptingReconnect false s
  else s.

Definition handleManualReconnect (socket : Socket) (s : AppState)
  : AppState * list Command :=
  let s := setServerIssueDetected false s in
  match socket with
  | Some false =>
      let s := setShowConnectionModal true s in
      let s := setIsAttemptingReconnect true s in
      (s, [socket_connect])
  | None => connectSocket socket s
  | Some true => (s, [])
  end.

(** [handleRefresh] once the fetch has settled; [ok] is the truth value of
    [data && data.status === 'success' && data.data], and a rejected
    promise takes the same path as [ok = false]. *)
Definition handleRefresh (ok : bool) (s : AppState) : AppState :=
  if ok then
    let s := setIsConnected true s in
    setShowConnectionModal false s
  else
    let s := setIsConnected false s in
    setShowConnectionModal true s.

(** What can happen to a mounted [App]. *)
Inductive Event : Type :=
| channel_opened                       (* 'connect' *)
| channel_closed (reason : string)     (* 'disconnect' *)
| connect_error
| reconnect_attempt
| reconnect_exhausted                  (* 'reconnect_failed' *)
| data_received (valid : bool)         (* 'market_data' *)
| user_retry (socket : Socket)         (* the Retry button *)
| refresh_settled (ok : bool)          (* the Refresh button's fetch *)
| mounted.                             (* the mount effect: [connectSocket()] *)

Definition step (e : Event) (s : AppState) : AppState :=
  match e with
  | channel_opened => on_connect s
  | channel_closed reason => on_disconnect reason s
  | connect_error => on_connect_error s
  | reconnect_attempt => on_reconnect_attempt s
  | reconnect_exhausted => on_reconnect_failed s
  | data_received valid => on_market_data valid s
  | user_retry socket => fst (handleManualReconnect socket s)
  | refresh_settled ok => handleRefresh ok s
  | mounted => fst (connectSocket None s)
  end.

Definition commands (e : Event) (s : AppState) : list Command :=
  match e with
  | user_retry socket => snd (handleManualReconnect socket s)
  | mounted => snd (connectSocket None s)
  | _ => []
  end.

Definition run (es : list Event) (s : AppState) : AppState :=
  fold_left (fun s e => step e s) es s.

(** ** ConnectionStatus.js *)

Definition message (s : AppState) : string :=
  let message := "Connecting to server..." in
  if isConnected s then "Connected to server successfully!"
  else if serverIssueDetected s then
    let message :=
      "Unable to connect to the server. It might be offline or experiencing issues. Retrying..." in
    if negb (isAttemptingReconnect s)
    then "Failed to connect to the server. It appears to be offline or experiencing issues. Please try again later."
    else message
  else if isAttemptingReconnect s then "Attempting to reconnect to server..."
  else "Disconnected from server. Please check your connection or retry.".

(** What the modal renders. *)
Record Modal : Type := {
  modal_message : string;
  loader : bool;
  retry_button : bool;
}.

(** [None] is the [null] returned while [show] is false. *)
Definition ConnectionStatus (s : AppState) : option Modal :=
  if negb (showConnectionModal s) then None
  else Some {| modal_message := message s;
               loader := negb (isConnected s) || isAttemptingReconnect s;
               retry_button := negb (isConnected s) |}.

(** The states of the specification and its message table, by which a
    displayed message names a state. *)
Inductive ConnectionState : Type :=
| Connecting
| Connected
| Disconnected
| Reconnecting
| ServerIssueRetrying
| ServerIssueFailed.

Definition state_message (c : ConnectionState) : string :=
  match c with
  | Connecting => "Connecting to server..."
  | Connected => "Connected to server successfully!"
  | Disconnected =>
      "Disconnected from server. Please check your connection or retry."
  | Reconnecting => "Attempting to reconnect to server..."
  | ServerIssueRetrying =>
      "Unable to connect to the server. It might be offline or experiencing issues. Retrying..."
  | ServerIssueFailed =>
      "Failed to connect to the server. It appears to be offline or experiencing issues. Please try again later."
  end.

Definition all_states : list ConnectionState :=
  [Connecting; Connected; Disconnected; Reconnecting;
   ServerIssueRetrying; ServerIssueFailed].

Definition state_of_message (m : string) : option ConnectionState :=
  List.find (fun c => String.eqb (state_message c) m) all_states.

(** The state a client in [s] is in, going by the message derived for it. *)
Definition connection_state (s : AppState) : option ConnectionState :=
  state_of_message (message s).

(** Whether the Retry button is on screen. *)
Definition retry_shown (s : AppState) : bool :=
  match ConnectionStatus s with
  | Some m => retry_button m
  | None => false
  end.

(** The client right after the mount effect has called [connectSocket]. *)
Definition mountedApp : AppState := step mounted initialApp.

(** ** Sample data *)

(** A raw field is well formed when it is a number other than [NaN]. *)
Definition well_formed_number (v : JS.value) : bool :=
  match v with
  | JS.num n => negb (JS.is_nan n)
  | _ => false
  end.

Definition well_formed (item : Item.t) : bool :=
  forallb (fun f => well_formed_number (Item.get f item)) Field.all.

(** [{symbol, ltp, open, high, low, close, volume}] with decimal literals
    for the numbers and no timestamp. *)
Definition quote (symbol ltp open high low close volume : string) : Item.t :=
  {| Item.symbol := JS.str symbol;
     Item.ltp := JS.literal ltp;
     Item.open := JS.literal open;
     Item.high := JS.literal high;
     Item.low := JS.literal low;
     Item.close := JS.literal close;
     Item.volume := JS.literal volume;
     Item.timestamp := JS.undefined |}.

(** [{ltp: "abc", close: null}] *)
Definition malformed_quote : Item.t :=
  {| Item.symbol := JS.undefined;
     Item.ltp := JS.str "abc";
     Item.open := JS.undefined;
     Item.high := JS.undefined;
     Item.low := JS.undefined;
     Item.close := JS.null;
     Item.volume := JS.undefined;
     Item.timestamp := JS.undefined |}.

(** [{ltp: NaN}] *)
Definition nan_quote : Item.t :=
  {| Item.symbol := JS.undefined;
     Item.ltp := JS.num JS.NaN;
     Item.open := JS.undefined;
     Item.high := JS.undefined;
     Item.low := JS.undefined;
     Item.close := JS.undefined;
     Item.volume := JS.undefined;
     Item.timestamp := JS.undefined |}.

(** A quote that lacks its [volume]. *)
Definition quote_without_volume : Item.t :=
  {| Item.symbol := JS.str "TCS";
     Item.ltp := JS.literal "3500";
     Item.open := JS.literal "3490";
     Item.high := JS.literal "3510";
     Item.low := JS.literal "3480";
     Item.close := JS.literal "3495";
     Item.volume := JS.undefined;
     Item.timestamp := JS.str "2024-01-01T09:15:00.000Z" |}.

Definition sample_quote : Item.t :=
  quote "INFY" "1500.5" "1490" "1510" "1485" "1495" "120000".

Definition stamped_quote : Item.t :=
  {| Item.symbol := JS.str "INFY";
     Item.ltp := JS.literal "1500.5";
     Item.open := JS.literal "1490";
     Item.high := JS.literal "1510";
     Item.low := JS.literal "1485";
     Item.close := JS.literal "1495";
     Item.volume := JS.literal "120000";
     Item.timestamp := JS.str "2024-01-01T09:15:00.000Z" |}.

(** Two clocks that read different instants. *)
Definition clock_a (_ : string) : string := "2024-01-01T09:15:00.000Z".
Definition clock_b (_ : string) : string := "2024-01-01T09:15:01.000Z".

(** The output of one run from the fresh table. *)
Definition first_run (clock : string -> string) (md : gmap string Item.t)
  : TableState :=
  reconcile clock initialTable (Some md).

(** A row with its [timestamp] blanked, to compare rows up to it. *)
Definition without_timestamp (r : Row.t) : Row.t :=
  {| Row.symbol := Row.symbol r;
     Row.ltp := Row.ltp r;
     Row.open := Row.open r;
     Row.high := Row.high r;
     Row.low := Row.low r;
     Row.close := Row.close r;
     Row.volume := Row.volume r;
     Row.change := Row.change r;
     Row.change_percent := Row.change_percent r;
     Row.trading_signal := Row.trading_signal r;
     Row.timestamp := JS.undefined;
     Row.ltp_changed := Row.ltp_changed r;
     Row.open_changed := Row.open_changed r;
     Row.high_changed := Row.high_changed r;
     Row.low_changed := Row.low_changed r;
     Row.close_changed := Row.close_changed r;
     Row.volume_changed := Row.volume_changed r;
     Row.signal_changed := Row.signal_changed r;
     Row.ltp_direction := Row.ltp_direction r;
     Row.open_direction := Row.open_direction r;
     Row.high_direction := Row.high_direction r;
     Row.low_direction := Row.low_direction r;
     Row.close_direction := Row.close_direction r;
     Row.volume_direction := Row.volume_direction r;
     Row.prev_ltp := Row.prev_ltp r;
     Row.prev_open := Row.prev_open r;
     Row.prev_high := Row.prev_high r;
     Row.prev_low := Row.prev_low r;
     Row.prev_close := Row.prev_close r;
     Row.prev_volume := Row.prev_volume r |}.

(** ** MarketDataTable.js: the filter of the table view and the cells *)

(** [String.prototype.toLowerCase] on code units below 256: the letters
    A-Z and the capital letters of Latin-1 (U+00C0-U+00DE without the
    multiplication sign U+00D7) move up by 32. *)
Definition toLowerCase_unit (c : ascii) : ascii :=
  let n := N_of_ascii c in
  if ((65 <=? n) && (n <=? 90)
      || (192 <=? n) && (n <=? 222) && negb (n =? 215))%N
  then ascii_of_N (n + 32)
  else c.

Fixpoint toLowerCase (s : string) : string :=
  match s with
  | EmptyString => EmptyString
  | String c s' => String (toLowerCase_unit c) (toLowerCase s')
  end.

(** [s.includes(searchString)] *)
Fixpoint includes (searchString s : string) : bool :=
  String.prefix searchString s
  || match s with
     | EmptyString => false
     | String _ s' => includes searchString s'
     end.

(** The string a signal is in the rows. *)
Definition Signal_name (s : Signal) : string :=
  match s with
  | BUY => "BUY"
  | SELL => "SELL"
  | HOLD => "HOLD"
  end.

(** The callback given to [filter] in [filteredData]; [None] is the
    TypeError raised by [item.symbol.toLowerCase()] when the symbol is not a
    string.  (The sort that follows only reorders the rows kept.) *)
Definition filter_callback (filterSignal searchTerm : string) (item : Row.t)
  : option bool :=
  if JS.strict_eq (Row.symbol item) (JS.str "NIFTY50-INDEX") then Some false
  else
    let matchesSignal :=
      String.eqb filterSignal "all"
      || String.eqb (Signal_name (Row.trading_signal item)) filterSignal in
    let matchesSearch :=
      if String.eqb searchTerm "" then Some true
      else
        match Row.symbol item with
        | JS.str symbol =>
            Some (includes (toLowerCase searchTerm) (toLowerCase symbol))
        | _ => None
        end in
    match matchesSearch with
    | Some b => Some (matchesSignal && b)
    | None => None
    end.

(** The props [ValueCell] takes its classes from; an [undefined] [changed]
    is [false] and a [null] or [undefined] [direction] is [None], which is
    all the component can tell of them. *)
Record ValueCellProps : Type := {
  cell_value : JS.number;
  cell_changed : bool;
  cell_direction : option Direction;
  cell_isChangeColumn : bool;
}.

Definition directionClass (p : ValueCellProps) : string :=
  match cell_direction p with
  | Some up => "change-up"
  | Some down => "change-down"
  | None => ""
  end.

Definition changedClass (p : ValueCellProps) : string :=
  if cell_changed p then "value-changed" else "".

Definition valueClass (p : ValueCellProps) : string :=
  if cell_isChangeColumn p then
    if JS.gt (JS.num (cell_value p)) (JS.num JS.pos_zero) then "positive-value"
    else if JS.lt (JS.num (cell_value p)) (JS.num JS.pos_zero)
    then "negative-value"
    else ""
  else "".

(** The [className] of the cell. *)
Definition ValueCell_className (p : ValueCellProps) : string :=
  ("value-cell " ++ directionClass p ++ " " ++ changedClass p ++ " "
   ++ valueClass p)%string.

(** The arrow rendered after the value, if any. *)
Definition ValueCell_indicator (p : ValueCellProps) : option Direction :=
  cell_direction p.

(** The columns of [columns] that render a [ValueCell]. *)
Inductive Column : Type :=
| col_field (f : Field.t)     (* LTP, Open, High, Low, Close, Volume *)
| col_change                  (* Change *)
| col_change_percent.         (* Change% *)

(** The props each column passes.  The Change and Change% columns read
    [row.change_changed], [row.change_direction], [row.change_percent_changed]
    and [row.change_percent_direction], which no row has. *)
Definition column_props (c : Column) (row : Row.t) : ValueCellProps :=
  match c with
  | col_field f =>
      {| cell_value := Row.get f row;
         cell_changed := Row.changed f row;
         cell_direction := Row.direction f row;
         cell_isChangeColumn := false |}
  | col_change =>
      {| cell_value := Row.change row;
         cell_changed := false;
         cell_direction := None;
         cell_isChangeColumn := true |}
  | col_change_percent =>
      {| cell_value := Row.change_percent row;
         cell_changed := false;
         cell_direction := None;
         cell_isChangeColumn := true |}
  end.

(** ** Runs of the effect *)

(** The effect run once for each new [marketData] prop, each run with its
    own clock readings. *)
Definition feed
    (inputs : list ((string -> string) * option (gmap string Item.t)))
    (st : TableState) : TableState :=
  fold_left (fun st i => reconcile (fst i) st (snd i)) inputs st.

(** The last snapshot of [inputs] that the effect does not ignore. *)
Fixpoint last_effective
    (inputs : list ((string -> string) * option (gmap string Item.t)))
    (acc : option (gmap string Item.t)) : option (gmap string Item.t) :=
  match inputs with
  | [] => acc
  | (_, Some md) :: rest =>
      last_effective rest (if decide (md = ∅) then acc else Some md)
  | (_, None) :: rest => last_effective rest acc
  end.

(** ** The effect on a payload whose quotes may be missing

    The loop reads [item.ltp] and the other properties unguarded, so a
    quote that is [null] or [undefined] makes it raise a TypeError; any
    other value is read through its properties.  Here a quote is
    [None] when it is [null] or [undefined], and the effect returns [None]
    when it raises: it is then left before [setDataWithDefaults] and the
    assignment to [prevDataRef.current]. *)

(** One iteration of the loop on such a quote. *)
Definition processEntry (now : string) (prevItem : option Row.t)
    (quote : option Item.t) : option Row.t :=
  match quote with
  | Some item => Some (processItem now prevItem item)
  | None => None
  end.

(** The loop: it stops at the first quote that raises, and otherwise
    stores one row per key (the outcome does not depend on the order in
    which the entries are visited). *)
Definition processedData_payload (clock : string -> string)
    (prev : gmap string Row.t) (marketData : gmap string (option Item.t))
  : option (gmap string Row.t) :=
  map_fold
    (fun key quote acc =>
       match acc with
       | Some processed =>
           match processEntry (clock key) (prev !! key) quote with
           | Some row => Some (<[key := row]> processed)
           | None => None
           end
       | None => None
       end)
    (Some ∅) marketData.

Definition reconcile_payload (clock : string -> string) (st : TableState)
    (marketData : option (gmap string (option Item.t))) : option TableState :=
  match marketData with
  | None => Some st
  | Some md =>
      if decide (md = ∅) then Some st
      else
        match processedData_payload clock (prevDataRef st) md with
        | Some processed =>
            Some {| dataWithDefaults := processed; prevDataRef := processed |}
        | None => None
        end
  end.

(** ** Predicates used in the statements *)

(** The modal is up whenever the client is not marked connected. *)
Definition modal_covers (s : AppState) : Prop :=
  isConnected s = false -> showConnectionModal s = true.

(** A number that is neither zero nor finite: NaN or an infinity. *)
Definition not_finite (n : JS.number) : bool :=
  match n with
  | S754_nan | S754_infinity _ => true
  | _ => false
  end.

(** * Properties *)

(** ** The connection tracker *)

Section ConnectionFacts.

Local Ltac crush_state s :=
  destruct s as [[] [] [] []]; vm_compute; try (repeat split; congruence).

(** The derived message is always one of the five assigned in the
    if-chain: the initial value of [message] is overwritten on every
    path. *)
Lemma message_never_default (s : AppState) :
  message s <> "Connecting to server...".
Proof. crush_state s. Qed.

Lemma connection_state_not_Connecting (s : AppState) :
  connection_state s <> Some Connecting.
Proof. crush_state s. Qed.

Lemma retry_shown_spec (s : AppState) :
  retry_shown s = showConnectionModal s && negb (isConnected s).
Proof. crush_state s; reflexivity. Qed.

Lemma on_connect_error_state (s : AppState) :
  on_connect_error s =
  {| isConnected := false; showConnectionModal := true;
     isAttemptingReconnect := true; serverIssueDetected := true |}.
Proof. reflexivity. Qed.

End ConnectionFacts.

(** C6, as stated, fails: after [connect_error] the [reconnect_attempt]
    event leaves the client in ServerIssueRetrying; it does not move it to
    Reconnecting. *)
Lemma reconnect_attempt_not_Reconnecting :
  connection_state (run [connect_error; reconnect_attempt] mountedApp)
    = Some ServerIssueRetrying
  /\ connection_state (run [connect_error; reconnect_attempt] mountedApp)
    <> Some Reconnecting.
Proof. split; [reflexivity | discriminate]. Qed.

(** C6 (amended): from the initial state, and in fact from any state [s],
    the events [connect_error; reconnect_attempt; reconnect_exhausted]
    lead through ServerIssueRetrying, ServerIssueRetrying (the flag set by
    [connect_error] survives [reconnect_attempt]) and ServerIssueFailed;
    the Retry button is on screen in the initial state, both before and
    after the mount effect, and after each of the three events. *)
Theorem connect_error_sequence (s : AppState) :
  let s1 := step connect_error s in
  let s2 := step reconnect_attempt s1 in
  let s3 := step reconnect_exhausted s2 in
  run [connect_error; reconnect_attempt; reconnect_exhausted] s = s3
  /\ connection_state s1 = Some ServerIssueRetrying
  /\ connection_state s2 = Some ServerIssueRetrying
  /\ connection_state s3 = Some ServerIssueFailed
  /\ retry_shown initialApp = true
  /\ retry_shown mountedApp = true
  /\ retry_shown s1 = true /\ retry_shown s2 = true /\ retry_shown s3 = true.
Proof. repeat split; reflexivity. Qed.

(** C7, as stated, fails: with the socket still connected (for instance
    after a failed refresh, which marks the client disconnected and shows
    the modal) the Retry button only clears the flag; the client stays in
    Disconnected and no connection attempt is made. *)
Lemma user_retry_connected_socket :
  let s := run [mounted; channel_opened; refresh_settled false] initialApp in
  retry_shown s = true
  /\ connection_state (step (user_retry (Some true)) s) = Some Disconnected
  /\ commands (user_retry (Some true)) s = [].
Proof. repeat split; reflexivity. Qed.

(** C7 (amended): [user_retry] clears the server-issue flag from every
    state; when the socket is missing or not connected it also starts a
    connection attempt and, the client not being marked connected (the
    only case in which the button is on screen), the state becomes
    Reconnecting, whatever the history.  ServerIssueFailed is such a
    state.  When the socket is still connected, [user_retry] only clears
    the flag. *)
Theorem user_retry_reconnects (socket : Socket) (s : AppState) :
  serverIssueDetected (step (user_retry socket) s) = false
  /\ (socket <> Some true ->
      In socket_connect (commands (user_retry socket) s)
      /\ isAttemptingReconnect (step (user_retry socket) s) = true
      /\ showConnectionModal (step (user_retry socket) s) = true
      /\ (isConnected s = false ->
          connection_state (step (user_retry socket) s) = Some Reconnecting))
  /\ (socket = Some true ->
      step (user_retry socket) s = setServerIssueDetected false s
      /\ commands (user_retry socket) s = []).
Proof.
  split; [destruct socket as [[]|]; reflexivity|].
  split; [|intros ->; split; reflexivity].
  intros Hs. destruct socket as [[]|]; [congruence| |];
    (repeat split; [simpl; auto | ]);
    intros Hc; destruct s as [c m a i]; simpl in Hc; subst c; reflexivity.
Qed.

Lemma user_retry_reconnects_witness :
  let s := run [mounted; connect_error; reconnect_exhausted] initialApp in
  connection_state s = Some ServerIssueFailed
  /\ serverIssueDetected (step (user_retry (Some false)) s) = false
  /\ In socket_connect (commands (user_retry (Some false)) s)
  /\ connection_state (step (user_retry (Some false)) s) = Some Reconnecting.
Proof.
  intros s.
  pose proof (user_retry_reconnects (Some false) s) as [H1 [H2 _]].
  destruct (H2 ltac:(discriminate)) as (H3 & _ & _ & H4).
  split; [reflexivity|]. split; [exact H1|].
  split; [exact H3 | exact (H4 eq_refl)].
Defined.

(** C9, as stated, fails: in the initial state, before and after the mount
    effect, the Retry button is shown, and the message is not the
    connecting one. *)
Lemma initial_state_offers_retry :
  ConnectionStatus initialApp =
    Some {| modal_message :=
              "Disconnected from server. Please check your connection or retry.";
            loader := true; retry_button := true |}
  /\ ConnectionStatus mountedApp =
    Some {| modal_message := "Attempting to reconnect to server...";
            loader := true; retry_button := true |}.
Proof. split; reflexivity. Qed.

(** C9 (amended): whenever the status modal is shown, the Retry button is
    shown exactly when the client is not connected: in the initial state
    and in the Disconnected, Reconnecting, ServerIssueRetrying and
    ServerIssueFailed states, and never in Connected. *)
Theorem retry_button_iff_not_connected (s : AppState) (m : Modal) :
  ConnectionStatus s = Some m ->
  (retry_button m = true <-> isConnected s = false)
  /\ (retry_button m = true <->
      In (connection_state s)
         [Some Disconnected; Some Reconnecting;
          Some ServerIssueRetrying; Some ServerIssueFailed])
  /\ (retry_button m = false <-> connection_state s = Some Connected)
  /\ retry_shown initialApp = true
  /\ retry_shown mountedApp = true.
Proof.
  destruct s as [[] [] [] []]; cbn; intros H; inversion H; subst; clear H;
    cbn; repeat split; intros; try reflexivity; try discriminate; auto;
    repeat match goal with
    | H : _ \/ _ |- _ => destruct H
    | H : False |- _ => destruct H
    end; try discriminate; tauto.
Qed.

Lemma retry_button_iff_not_connected_witness :
  exists m,
    ConnectionStatus (step connect_error initialApp) = Some m
    /\ retry_button m = true.
Proof.
  eexists; split; [reflexivity|].
  destruct (retry_button_iff_not_connected
              (step connect_error initialApp) _ eq_refl) as [[_ H] _].
  exact (H eq_refl).
Defined.

(** C10: a valid snapshot marks the client connected and ends the
    reconnecting indication but leaves a set server-issue flag set; the
    flag is cleared by [channel_opened], by a client-initiated disconnect
    and by [user_retry], and by nothing else; so after such a snapshot a
    disconnect for any other reason shows the server-issue message at
    once. *)
Theorem data_received_keeps_server_issue (s : AppState) :
  serverIssueDetected s = true ->
  let s' := step (data_received true) s in
  (isConnected s' = true /\ isAttemptingReconnect s' = false
   /\ serverIssueDetected s' = true)
  /\ (forall e, serverIssueDetected (step e s) = false ->
        e = channel_opened \/ e = channel_closed "io client disconnect"
        \/ exists socket, e = user_retry socket)
  /\ (serverIssueDetected (step channel_opened s) = false
      /\ serverIssueDetected
           (step (channel_closed "io client disconnect") s) = false
      /\ forall socket, serverIssueDetected (step (user_retry socket) s) = false)
  /\ (forall reason, reason <> "io client disconnect" ->
        ConnectionStatus (step (channel_closed reason) s') =
          Some {| modal_message := state_message ServerIssueRetrying;
                  loader := true; retry_button := true |}).
Proof.
  destruct s as [c m a i]; simpl; intros ->.
  split; [repeat split|split; [|split]].
  - intros e He. destruct e as [|reason| | | |valid|socket|ok|]; simpl in He;
      try discriminate; eauto.
    + unfold on_disconnect in He; simpl in He.
      destruct (String.eqb reason "io client disconnect") eqn:E.
      * apply String.eqb_eq in E; subst; auto.
      * destruct (String.eqb reason "transport error"
                  || String.eqb reason "ping timeout"); discriminate.
    + destruct valid; discriminate.
    + destruct ok; discriminate.
  - repeat split. intros [[]|]; reflexivity.
  - intros reason Hr. apply String.eqb_neq in Hr.
    unfold on_disconnect, on_market_data; simpl. rewrite Hr.
    destruct (String.eqb reason "transport error"
              || String.eqb reason "ping timeout"); reflexivity.
Qed.

Lemma data_received_keeps_server_issue_witness :
  serverIssueDetected
    (step (data_received true) (step connect_error initialApp)) = true
  /\ connection_state
       (run [connect_error; data_received true; channel_closed "io server disconnect"]
            initialApp) = Some ServerIssueRetrying.
Proof.
  destruct (data_received_keeps_server_issue
              (step connect_error initialApp) eq_refl)
    as ((_ & _ & H1) & _ & _ & H2).
  split; [exact H1|].
  specialize (H2 "io server disconnect" ltac:(discriminate)).
  unfold connection_state, ConnectionStatus in *. simpl in *.
  inversion H2 as [H3]. reflexivity.
Defined.


(** ** Numbers and comparisons *)

Section NumberFacts.

Lemma SFcompare_swap (a b : JS.number) :
  SFcompare b a = option_map CompOpp (SFcompare a b).
Proof.
  destruct a as [sa|sa| |sa ma ea], b as [sb|sb| |sb mb eb]; simpl;
    try reflexivity; try (destruct sa; reflexivity);
    try (destruct sb; reflexivity);
    try (destruct sa, sb; reflexivity).
  destruct sa, sb; simpl; try reflexivity;
    rewrite (Z.compare_antisym ea eb); destruct (ea ?= eb)%Z; simpl;
    try reflexivity; f_equal.
  - rewrite CompOpp_involutive. exact (Pos.compare_cont_antisym mb ma Eq).
  - symmetry. exact (Pos.compare_cont_antisym ma mb Eq).
Qed.

Lemma nltb_asym (a b : JS.number) :
  JS.nltb a b = true -> JS.nltb b a = false.
Proof.
  unfold JS.nltb, SFltb. rewrite (SFcompare_swap a b).
  destruct (SFcompare a b) as [[]|]; simpl; congruence.
Qed.

Lemma nltb_neqb (a b : JS.number) :
  JS.nltb a b = true -> JS.neqb a b = false /\ JS.neqb b a = false.
Proof.
  unfold JS.nltb, JS.neqb, SFltb, SFeqb. rewrite (SFcompare_swap a b).
  destruct (SFcompare a b) as [[]|]; simpl; try congruence. auto.
Qed.

Lemma neqb_refl (a : JS.number) :
  JS.is_nan a = false -> JS.neqb a a = true.
Proof.
  unfold JS.neqb, SFeqb. destruct a as [s|s| |s m e]; simpl;
    try congruence; try (destruct s; reflexivity).
  intros _. destruct s; rewrite Z.compare_refl, Pos.compare_cont_refl;
    reflexivity.
Qed.

Lemma neqb_nan_l (a : JS.number) : JS.neqb JS.NaN a = false.
Proof. reflexivity. Qed.

Lemma lt_asym (a b : JS.value) : JS.lt a b = true -> JS.gt a b = false.
Proof.
  unfold JS.gt, JS.lt.
  destruct a as [| |x|x|x], b as [| |y|y|y]; try apply nltb_asym.
  unfold String.ltb. rewrite (String.compare_antisym y x).
  destruct (x ?= y)%string; simpl; congruence.
Qed.

Lemma lt_strict_neq (a b : JS.value) :
  JS.lt a b = true -> JS.strict_eq a b = false /\ JS.strict_eq b a = false.
Proof.
  destruct a as [| |x|x|x], b as [| |y|y|y]; simpl; auto;
    try (vm_compute; congruence).
  - destruct x, y; vm_compute; auto; congruence.
  - apply nltb_neqb.
  - unfold String.ltb. intros H.
    assert (x <> y) as Hne
      by (intros ->; pose proof (String.compare_antisym y y) as A;
          destruct (y ?= y)%string; simpl in A; discriminate).
    split; apply String.eqb_neq; congruence.
Qed.

(** The conversion agrees with the binary64 values of some literals:
    0.1 is 0x1.999999999999ap-4, 101.0001 is 0x1.94001a36e2eb2p+6, the
    smallest subnormal is 2^-1074, and 1e309 overflows. *)
Example StringToNumber_samples :
  JS.StringToNumber "0.1" = S754_finite false 7205759403792794 (-56)
  /\ JS.StringToNumber "101.0001" = S754_finite false 7107250198818482 (-46)
  /\ JS.StringToNumber " 5e-324 " = S754_finite false 1 (-1074)
  /\ JS.StringToNumber "1e309" = S754_infinity false
  /\ JS.StringToNumber "0x1F" = JS.of_Z 31
  /\ JS.StringToNumber "100" = JS.of_Z 100
  /\ JS.StringToNumber "" = JS.pos_zero
  /\ JS.StringToNumber "abc" = JS.NaN
  /\ JS.StringToNumber "12px" = JS.NaN.
Proof. vm_compute. repeat split. Qed.

(** The SELL side of the signal boundary. *)
Example sell_boundary :
  trading_signal_of (JS.literal "98.9999") (JS.literal "100")
                    (JS.literal "101") (JS.literal "99") = SELL
  /\ trading_signal_of (JS.literal "5") (JS.literal "0")
                       (JS.literal "1") (JS.literal "1") = HOLD.
Proof. vm_compute. split; reflexivity. Qed.

Lemma gt_strict_neq (a b : JS.value) :
  JS.gt a b = true -> JS.strict_eq a b = false.
Proof. intros H. apply (lt_strict_neq b a H). Qed.

End NumberFacts.

(** ** The reconciler *)

Section ReconcilerFacts.

Implicit Types (clock : string -> string) (st : TableState).
Implicit Types (md : gmap string Item.t) (key : string) (item : Item.t).

Lemma processedData_lookup clock (prev : gmap string Row.t) md key :
  processedData clock prev md !! key =
  processItem (clock key) (prev !! key) <$> md !! key.
Proof.
  unfold processedData. rewrite map_lookup_imap.
  destruct (md !! key); reflexivity.
Qed.

Lemma processedData_dom clock (prev : gmap string Row.t) md :
  dom (processedData clock prev md) = dom md.
Proof.
  apply set_eq. intros key. rewrite !elem_of_dom, processedData_lookup.
  apply fmap_is_Some.
Qed.

Lemma reconcile_nonempty clock st md :
  md <> ∅ ->
  reconcile clock st (Some md) =
  {| dataWithDefaults := processedData clock (prevDataRef st) md;
     prevDataRef := processedData clock (prevDataRef st) md |}.
Proof. intros H. unfold reconcile. destruct (decide (md = ∅)); [done|]. reflexivity. Qed.

Lemma reconcile_empty clock st : reconcile clock st (Some ∅) = st.
Proof. unfold reconcile. destruct (decide (∅ = ∅)); [reflexivity|congruence]. Qed.

Lemma lookup_nonempty md key item : md !! key = Some item -> md <> ∅.
Proof. intros H ->. by rewrite lookup_empty in H. Qed.

(** The row the effect stores under a key of the snapshot. *)
Lemma reconcile_lookup clock st md key item :
  md !! key = Some item ->
  dataWithDefaults (reconcile clock st (Some md)) !! key =
    Some (processItem (clock key) (prevDataRef st !! key) item)
  /\ prevDataRef (reconcile clock st (Some md)) !! key =
    Some (processItem (clock key) (prevDataRef st !! key) item).
Proof.
  intros H. rewrite (reconcile_nonempty _ _ _ (lookup_nonempty _ _ _ H)).
  simpl. rewrite processedData_lookup, H. auto.
Qed.

Lemma changed_processItem now prevItem item f :
  Row.changed f (processItem now prevItem item) =
  negb (JS.strict_eq (Item.get f item) (prevItem_get f prevItem)).
Proof. destruct f; reflexivity. Qed.

Lemma direction_processItem now prevItem item f :
  Row.direction f (processItem now prevItem item) =
  if negb (JS.strict_eq (Item.get f item) (prevItem_get f prevItem))
  then Some (if JS.gt (Item.get f item) (prevItem_get f prevItem)
             then up else down)
  else None.
Proof. destruct f; reflexivity. Qed.

Lemma get_processItem now prevItem item f :
  Row.get f (processItem now prevItem item) =
  number_or_zero (Item.get f item).
Proof. destruct f; reflexivity. Qed.

End ReconcilerFacts.

(** C5, as stated, fails for the empty snapshot: the effect returns before
    touching its state, so a symbol of the previous state stays in both
    [dataWithDefaults] and [prevDataRef] although the snapshot lacks it. *)
Lemma empty_snapshot_keeps_rows :
  let st := first_run clock_a {["INFY" := sample_quote]} in
  let st' := reconcile clock_a st (Some ∅) in
  ({["INFY" := sample_quote]} : gmap string Item.t) !! "INFY"
    = Some sample_quote
  /\ (∅ : gmap string Item.t) !! "INFY" = None
  /\ is_Some (dataWithDefaults st' !! "INFY")
  /\ is_Some (prevDataRef st' !! "INFY")
  /\ dom (dataWithDefaults st') <> dom (∅ : gmap string Item.t).
Proof.
  cbv zeta.
  rewrite reconcile_empty.
  destruct (reconcile_lookup clock_a initialTable {["INFY" := sample_quote]}
              "INFY" sample_quote (lookup_singleton_eq _ _)) as [H1 H2].
  unfold first_run. rewrite H1, H2.
  split; [apply lookup_singleton_eq|]. split; [apply lookup_empty|].
  split; [eauto|]. split; [eauto|].
  rewrite dom_empty_L. intros H.
  apply (not_elem_of_empty (C:=gset string) "INFY"). rewrite <- H.
  apply elem_of_dom. rewrite H1. eauto.
Qed.

(** C5 (amended): for every non-empty snapshot the reconciled output, and
    the state retained for the next run, have exactly the keys of the
    snapshot, one row each; the symbols of the previous state that the
    snapshot lacks are gone.  An empty (or missing) snapshot leaves the
    state as it was. *)
Theorem snapshot_keys (clock : string -> string) (st : TableState)
    (md : gmap string Item.t) :
  (md <> ∅ ->
   let st' := reconcile clock st (Some md) in
   dom (dataWithDefaults st') = dom md
   /\ dom (prevDataRef st') = dom md
   /\ size (dataWithDefaults st') = size md
   /\ (forall key, md !! key = None ->
         dataWithDefaults st' !! key = None /\ prevDataRef st' !! key = None)
   /\ (forall key item, md !! key = Some item ->
         exists r, dataWithDefaults st' !! key = Some r
                   /\ prevDataRef st' !! key = Some r))
  /\ reconcile clock st (Some ∅) = st
  /\ reconcile clock st None = st.
Proof.
  split; [|split; [apply reconcile_empty|reflexivity]].
  intros Hne. rewrite (reconcile_nonempty _ _ _ Hne). simpl.
  rewrite processedData_dom. repeat split.
  - rewrite <- !size_dom, processedData_dom. reflexivity.
  - rewrite processedData_lookup, H. reflexivity.
  - rewrite processedData_lookup, H. reflexivity.
  - intros key item H. rewrite processedData_lookup, H. eauto.
Qed.

Lemma snapshot_keys_witness :
  let st := first_run clock_a {["INFY" := sample_quote]} in
  let md : gmap string Item.t := {["TCS" := quote_without_volume]} in
  dom (dataWithDefaults (reconcile clock_b st (Some md))) = dom md
  /\ dataWithDefaults (reconcile clock_b st (Some md)) !! "INFY" = None.
Proof.
  intros st md.
  destruct (snapshot_keys clock_b st md) as [H _].
  assert (md <> ∅) as Hne
    by (apply (lookup_nonempty md "TCS" quote_without_volume);
        apply lookup_singleton_eq).
  destruct (H Hne) as (H1 & _ & _ & H2 & _).
  split; [exact H1|]. apply H2. apply lookup_singleton_ne. discriminate.
Defined.

(** C2, as stated, fails in its last part: a symbol that has no entry in
    the previous output has its fields flagged as changed (the previous
    value reads as [undefined], from which every number differs), with
    direction down. *)
Lemma first_appearance_is_flagged :
  exists r,
    prevDataRef initialTable !! "INFY" = None
    /\ dataWithDefaults (first_run clock_a {["INFY" := sample_quote]}) !! "INFY"
       = Some r
    /\ Row.changed Field.ltp r = true
    /\ Row.direction Field.ltp r = Some down.
Proof.
  destruct (reconcile_lookup clock_a initialTable {["INFY" := sample_quote]}
              "INFY" sample_quote (lookup_singleton_eq _ _)) as [H1 _].
  eexists. split; [apply lookup_empty|]. split; [exact H1|].
  split; reflexivity.
Qed.

(** C2 (amended): for every key of the snapshot and each of the six numeric
    fields, with [new] the raw value of the snapshot and [old] the value
    stored for that key in the previous output ([undefined] when the key
    has no entry there): the changed flag is true iff [new !== old]; when
    changed, the direction is up if [new > old] and down otherwise, in
    particular if [new < old] (and either of these comparisons implies
    changed); when [new === old], changed is false and the direction is
    absent; and a field of a key with no previous entry is flagged as
    changed exactly when the snapshot gives it a value. *)
Theorem changed_and_direction (clock : string -> string) (st : TableState)
    (md : gmap string Item.t) (key : string) (item : Item.t) :
  md !! key = Some item ->
  exists r,
    dataWithDefaults (reconcile clock st (Some md)) !! key = Some r
    /\ forall f,
        let new := Item.get f item in
        let old := prevItem_get f (prevDataRef st !! key) in
        (Row.changed f r = true <-> JS.strict_eq new old = false)
        /\ (Row.changed f r = true ->
            Row.direction f r = Some (if JS.gt new old then up else down))
        /\ (JS.gt new old = true ->
            Row.changed f r = true /\ Row.direction f r = Some up)
        /\ (JS.lt new old = true ->
            Row.changed f r = true /\ Row.direction f r = Some down)
        /\ (JS.strict_eq new old = true ->
            Row.changed f r = false /\ Row.direction f r = None)
        /\ (prevDataRef st !! key = None ->
            (Row.changed f r = true <-> new <> JS.undefined)).
Proof.
  intros H. destruct (reconcile_lookup clock st md key item H) as [H1 _].
  eexists. split; [exact H1|]. intros f. cbv zeta.
  rewrite changed_processItem, direction_processItem.
  set (new := Item.get f item).
  set (old := prevItem_get f (prevDataRef st !! key)).
  split. { apply negb_true_iff. }
  split. { intros ->. reflexivity. }
  split. { intros G. rewrite (gt_strict_neq _ _ G), G. split; reflexivity. }
  split. { intros L. rewrite (proj1 (lt_strict_neq _ _ L)), (lt_asym _ _ L).
           split; reflexivity. }
  split. { intros E. rewrite E. split; reflexivity. }
  intros Hnone. subst old. rewrite Hnone. simpl.
  destruct new; simpl; split; congruence.
Qed.

Lemma changed_and_direction_witness :
  exists r,
    dataWithDefaults
      (reconcile clock_b (first_run clock_a {["INFY" := sample_quote]})
                 (Some {["INFY" := quote "INFY" "1501" "1490" "1510" "1485" "1495" "120000"]}))
      !! "INFY" = Some r
    /\ Row.changed Field.ltp r = true
    /\ Row.direction Field.ltp r = Some up
    /\ Row.changed Field.open r = false
    /\ Row.direction Field.open r = None.
Proof.
  destruct (changed_and_direction clock_b
              (first_run clock_a {["INFY" := sample_quote]})
              {["INFY" := quote "INFY" "1501" "1490" "1510" "1485" "1495" "120000"]}
              "INFY" _ (lookup_singleton_eq _ _)) as (r & Hr & Hf).
  exists r. split; [exact Hr|].
  destruct (reconcile_lookup clock_a initialTable {["INFY" := sample_quote]}
              "INFY" sample_quote (lookup_singleton_eq _ _)) as [_ Hp].
  pose proof (Hf Field.ltp) as (_ & _ & Hup & _).
  pose proof (Hf Field.open) as (_ & _ & _ & _ & Heq & _).
  unfold first_run in Hup, Heq. rewrite Hp in Hup, Heq.
  destruct (Hup ltac:(vm_compute; reflexivity)) as [-> ->].
  destruct (Heq ltac:(vm_compute; reflexivity)) as [-> ->].
  repeat split.
Defined.

(** The three outcomes of the if-chain, one by one. *)
Lemma trading_signal_of_cases (ltp close high low : JS.value) :
  let cp := JS.num (change_percent_of ltp close) in
  let vol := JS.num (volatility_of high low close) in
  let buy :=
    JS.gt ltp close && JS.gt cp (JS.num (JS.of_Z 1))
    && JS.lt vol (JS.num (JS.of_Z 5)) in
  let sell :=
    negb (JS.gt ltp close) && JS.lt cp (JS.num (JS.of_Z (-1)))
    && JS.lt vol (JS.num (JS.of_Z 5)) in
  trading_signal_of ltp close high low =
  if buy then BUY else if sell then SELL else HOLD.
Proof.
  unfold trading_signal_of, shortTermTrend.
  destruct (JS.gt ltp close); reflexivity.
Qed.



Section PayloadFacts.

Implicit Types (clock : string -> string) (prev : gmap string Row.t).

(** What the loop returns: it raises exactly when some quote is missing,
    and otherwise holds the row of every quote. *)
Lemma processedData_payload_spec clock prev
    (md : gmap string (option Item.t)) :
  (processedData_payload clock prev md = None <->
   exists key, md !! key = Some None)
  /\ forall processed,
      processedData_payload clock prev md = Some processed ->
      forall key,
        processed !! key =
        match md !! key with
        | Some (Some item) => Some (processItem (clock key) (prev !! key) item)
        | _ => None
        end.
Proof.
  unfold processedData_payload.
  apply (map_fold_weak_ind
           (fun (r : option (gmap string Row.t))
                (m : gmap string (option Item.t)) =>
              (r = None <-> exists key, m !! key = Some None)
              /\ forall processed, r = Some processed ->
                  forall key,
                    processed !! key =
                    match m !! key with
                    | Some (Some item) =>
                        Some (processItem (clock key) (prev !! key) item)
                    | _ => None
                    end)).
  - split.
    + split; [discriminate|]. intros [key H].
      rewrite lookup_empty in H. discriminate.
    + intros processed [= <-] key. rewrite !lookup_empty. reflexivity.
  - intros i x m r Hi [Hnone Hrows]. destruct r as [processed|].
    + specialize (Hrows processed eq_refl).
      assert (forall key, m !! key <> Some None) as Hall.
      { intros key Hk. destruct Hnone as [_ Hn].
        specialize (Hn (ex_intro _ key Hk)). discriminate. }
      destruct x as [item|]; simpl.
      * split.
        -- split; [discriminate|]. intros [key Hk].
           destruct (decide (i = key)) as [->|Hne].
           ++ rewrite lookup_insert_eq in Hk. discriminate.
           ++ rewrite lookup_insert_ne in Hk by exact Hne.
              exfalso. exact (Hall key Hk).
        -- intros rows [= <-] key.
           destruct (decide (i = key)) as [->|Hne].
           ++ rewrite !lookup_insert_eq. reflexivity.
           ++ rewrite !lookup_insert_ne by exact Hne. apply Hrows.
      * split; [|discriminate].
        split; [intros _|reflexivity].
        exists i. apply lookup_insert_eq.
    + split; [|discriminate]. split; [intros _|reflexivity].
      destruct (proj1 Hnone eq_refl) as [key Hk]. exists key.
      rewrite lookup_insert_ne; [exact Hk|].
      intros ->. rewrite Hi in Hk. discriminate.
Qed.



(** The effect raises exactly when a quote of the snapshot is missing. *)
Lemma reconcile_payload_raises clock (st : TableState)
    (md : gmap string (option Item.t)) :
  reconcile_payload clock st (Some md) = None <->
  exists key, md !! key = Some None.
Proof.
  unfold reconcile_payload.
  destruct (processedData_payload_spec clock (prevDataRef st) md)
    as [Hnone _].
  destruct (decide (md = ∅)) as [->|Hne].
  - split; [discriminate|]. intros [key Hk].
    rewrite lookup_empty in Hk. discriminate.
  - destruct (processedData_payload clock (prevDataRef st) md).
    + split; [discriminate|]. intros H. apply Hnone in H. discriminate.
    + split; [intros _; apply Hnone; reflexivity|reflexivity].
Qed.

End PayloadFacts.




(** A quote that is itself [null] makes the effect raise, also beside a
    well-formed one. *)
Example null_quote_raises :
  reconcile_payload clock_a initialTable
    (Some {["X" := None; "INFY" := Some sample_quote]}) = None.
Proof.
  apply reconcile_payload_raises. exists "X". apply lookup_insert_eq.
Qed.

Lemma well_formed_field (item : Item.t) (f : Field.t) :
  well_formed item = true ->
  exists n, Item.get f item = JS.num n /\ JS.is_nan n = false.
Proof.
  unfold well_formed. rewrite forallb_forall. intros H.
  assert (In f Field.all) as Hin by (destruct f; simpl; tauto).
  specialize (H f Hin). unfold well_formed_number in H.
  destruct (Item.get f item) as [| | |n|]; try discriminate.
  exists n. split; [reflexivity|]. now apply negb_true_iff.
Qed.

Lemma Signal_eqb_refl (s : Signal) : Signal_eqb s s = true.
Proof. destruct s; reflexivity. Qed.

(** A second pass over the same well-formed quote finds nothing changed. *)
Lemma processItem_again (now1 now2 : string) (prevItem : option Row.t)
    (item : Item.t) :
  well_formed item = true ->
  let r := processItem now2 (Some (processItem now1 prevItem item)) item in
  (forall f, Row.changed f r = false /\ Row.direction f r = None)
  /\ Row.signal_changed r = false.
Proof.
  intros Hwf. cbv zeta. split.
  - intros f. rewrite changed_processItem, direction_processItem.
    unfold prevItem_get. rewrite get_processItem.
    destruct (well_formed_field item f Hwf) as (n & -> & Hn).
    unfold number_or_zero. simpl. rewrite (neqb_refl n Hn). auto.
  - simpl. rewrite Signal_eqb_refl. reflexivity.
Qed.

(** C3, as stated, fails: a quote that lacks a field (or carries a string)
    is stored with 0 in its place, and the second run compares the raw
    value with that 0; and for the empty snapshot neither run does
    anything, so the flags of the retained rows stay as they were. *)
Lemma second_run_still_flags :
  (exists r,
     dataWithDefaults
       (reconcile clock_a (first_run clock_a {["TCS" := quote_without_volume]})
                  (Some {["TCS" := quote_without_volume]})) !! "TCS" = Some r
     /\ Row.changed Field.volume r = true)
  /\ (exists r,
        dataWithDefaults
          (reconcile clock_a
             (reconcile clock_a
                (first_run clock_a {["INFY" := sample_quote]}) (Some ∅))
             (Some ∅)) !! "INFY" = Some r
        /\ Row.changed Field.ltp r = true).
Proof.
  split.
  - destruct (reconcile_lookup clock_a
                (first_run clock_a {["TCS" := quote_without_volume]})
                {["TCS" := quote_without_volume]}
                "TCS" _ (lookup_singleton_eq _ _)) as [H1 _].
    eexists. split; [exact H1|].
    rewrite changed_processItem. reflexivity.
  - rewrite !reconcile_empty.
    destruct (reconcile_lookup clock_a initialTable {["INFY" := sample_quote]}
                "INFY" _ (lookup_singleton_eq _ _)) as [H1 _].
    eexists. split; [exact H1|]. reflexivity.
Qed.

(** C3 (amended): for any previous state and any non-empty snapshot whose
    six numeric fields are all numbers other than NaN, reconciling the
    snapshot and then reconciling it again yields, for every symbol of the
    snapshot, changed = false (and no direction) for every field, and an
    unchanged signal. *)
Theorem second_run_unchanged (clock1 clock2 : string -> string)
    (st : TableState) (md : gmap string Item.t) :
  md <> ∅ ->
  (forall key item, md !! key = Some item -> well_formed item = true) ->
  let st2 := reconcile clock2 (reconcile clock1 st (Some md)) (Some md) in
  dom (dataWithDefaults st2) = dom md
  /\ forall key r,
      dataWithDefaults st2 !! key = Some r ->
      (forall f, Row.changed f r = false /\ Row.direction f r = None)
      /\ Row.signal_changed r = false.
Proof.
  intros Hne Hwf. cbv zeta.
  rewrite (reconcile_nonempty clock2 _ _ Hne),
          (reconcile_nonempty clock1 _ _ Hne). simpl.
  split; [apply processedData_dom|].
  intros key r. rewrite !processedData_lookup.
  destruct (md !! key) as [item|] eqn:E; simpl; [|discriminate].
  intros [= <-]. apply processItem_again. eauto.
Qed.

Lemma second_run_unchanged_witness :
  exists r,
    dataWithDefaults
      (reconcile clock_b (first_run clock_a {["INFY" := sample_quote]})
                 (Some {["INFY" := sample_quote]})) !! "INFY" = Some r
    /\ Row.changed Field.ltp r = false
    /\ Row.signal_changed r = false.
Proof.
  assert (({["INFY" := sample_quote]} : gmap string Item.t) <> ∅) as Hne
    by (apply (lookup_nonempty _ "INFY" sample_quote), lookup_singleton_eq).
  assert (forall key item,
             ({["INFY" := sample_quote]} : gmap string Item.t) !! key
               = Some item -> well_formed item = true) as Hwf.
  { intros key item H. apply lookup_singleton_Some in H as [_ <-].
    vm_compute. reflexivity. }
  destruct (second_run_unchanged clock_a clock_b initialTable
              {["INFY" := sample_quote]} Hne Hwf) as [_ H].
  destruct (reconcile_lookup clock_b
              (first_run clock_a {["INFY" := sample_quote]})
              {["INFY" := sample_quote]} "INFY" _ (lookup_singleton_eq _ _))
    as [Hr _].
  eexists. split; [exact Hr|].
  destruct (H "INFY" _ Hr) as [Hf Hs].
  split; [apply (Hf Field.ltp) | exact Hs].
Defined.

Lemma processItem_stamped (now1 now2 : string) (prevItem : option Row.t)
    (item : Item.t) :
  JS.ToBoolean (Item.timestamp item) = true ->
  processItem now1 prevItem item = processItem now2 prevItem item.
Proof. intros H. unfold processItem, JS.or. rewrite H. reflexivity. Qed.

Lemma processItem_without_timestamp (now1 now2 : string)
    (prevItem : option Row.t) (item : Item.t) :
  without_timestamp (processItem now1 prevItem item) =
  without_timestamp (processItem now2 prevItem item).
Proof. reflexivity. Qed.

(** Two runs agree as soon as they build the same row for every quote. *)
Lemma reconcile_ext (clock1 clock2 : string -> string) (st : TableState)
    (md : gmap string Item.t) :
  (forall key item, md !! key = Some item ->
      processItem (clock1 key) (prevDataRef st !! key) item =
      processItem (clock2 key) (prevDataRef st !! key) item) ->
  reconcile clock1 st (Some md) = reconcile clock2 st (Some md).
Proof.
  intros H. unfold reconcile. destruct (decide (md = ∅)); [reflexivity|].
  assert (processedData clock1 (prevDataRef st) md =
          processedData clock2 (prevDataRef st) md) as ->; [|reflexivity].
  apply map_eq. intros key. rewrite !processedData_lookup.
  destruct (md !! key) as [item|] eqn:E; simpl; [|reflexivity].
  f_equal. apply H, E.
Qed.

(** C8, as stated, fails: a quote without a timestamp is stamped with the
    time of the run, so two runs on the same previous state and the same
    snapshot that read different clocks give different outputs. *)
Lemma runs_differ_in_timestamp :
  exists r1 r2,
    dataWithDefaults (reconcile clock_a initialTable (Some {["INFY" := sample_quote]}))
      !! "INFY" = Some r1
    /\ dataWithDefaults (reconcile clock_b initialTable (Some {["INFY" := sample_quote]}))
      !! "INFY" = Some r2
    /\ Row.timestamp r1 <> Row.timestamp r2
    /\ reconcile clock_a initialTable (Some {["INFY" := sample_quote]})
       <> reconcile clock_b initialTable (Some {["INFY" := sample_quote]}).
Proof.
  destruct (reconcile_lookup clock_a initialTable {["INFY" := sample_quote]}
              "INFY" _ (lookup_singleton_eq _ _)) as [Ha _].
  destruct (reconcile_lookup clock_b initialTable {["INFY" := sample_quote]}
              "INFY" _ (lookup_singleton_eq _ _)) as [Hb _].
  assert (forall p,
             Row.timestamp (processItem (clock_a "INFY") p sample_quote) <>
             Row.timestamp (processItem (clock_b "INFY") p sample_quote))
    as Hts by (intros p; vm_compute; discriminate).
  eexists. eexists. split; [exact Ha|]. split; [exact Hb|].
  split; [apply Hts|].
  intros E. apply (Hts (prevDataRef initialTable !! "INFY")).
  rewrite E, Hb in Ha.
  exact (f_equal (fun o => match o with
                           | Some r => Row.timestamp r
                           | None => JS.undefined
                           end) (eq_sym Ha)).
Qed.

(** C8 (amended): two runs of reconcile on the same previous state and the
    same snapshot produce outputs with the same symbols and rows that are
    identical in every field other than the timestamp; the outputs are
    identical, timestamps included, when the two runs read the same clock
    or when every quote of the snapshot carries a timestamp. *)
Theorem reconcile_deterministic (clock1 clock2 : string -> string)
    (st : TableState) (md : gmap string Item.t) :
  (forall key r1,
      dataWithDefaults (reconcile clock1 st (Some md)) !! key = Some r1 ->
      exists r2,
        dataWithDefaults (reconcile clock2 st (Some md)) !! key = Some r2
        /\ without_timestamp r1 = without_timestamp r2)
  /\ ((forall key, clock1 key = clock2 key) ->
      reconcile clock1 st (Some md) = reconcile clock2 st (Some md))
  /\ ((forall key item, md !! key = Some item ->
          JS.ToBoolean (Item.timestamp item) = true) ->
      reconcile clock1 st (Some md) = reconcile clock2 st (Some md)).
Proof.
  split; [|split].
  - intros key r1. unfold reconcile.
    destruct (decide (md = ∅)); [eauto|]. simpl.
    rewrite !processedData_lookup.
    destruct (md !! key) as [item|]; simpl; [|discriminate].
    intros [= <-]. eexists. split; [reflexivity|].
    apply processItem_without_timestamp.
  - intros Hc. apply reconcile_ext. intros key item _.
    rewrite (Hc key). reflexivity.
  - intros Hts. apply reconcile_ext. intros key item H.
    apply processItem_stamped. eauto.
Qed.

Lemma reconcile_deterministic_witness :
  reconcile clock_a initialTable (Some {["INFY" := stamped_quote]})
  = reconcile clock_b initialTable (Some {["INFY" := stamped_quote]}).
Proof.
  destruct (reconcile_deterministic clock_a clock_b initialTable
              {["INFY" := stamped_quote]}) as (_ & _ & H).
  apply H. intros key item Hl.
  apply lookup_singleton_Some in Hl as [_ <-]. reflexivity.
Defined.

(** * Further properties of the connection tracker *)

(** X1: the state a client is shown in is read off its three flags:
    Connected iff it is marked connected, whatever the other flags; and
    when it is not, ServerIssueRetrying or ServerIssueFailed under the
    server-issue flag (by the attempting flag), Reconnecting or
    Disconnected without it.  The message the variable starts with is never
    the one displayed. *)
Theorem connection_state_by_flags (s : AppState) :
  (connection_state s = Some Connected <-> isConnected s = true)
  /\ (connection_state s = Some ServerIssueRetrying <->
      isConnected s = false /\ serverIssueDetected s = true
      /\ isAttemptingReconnect s = true)
  /\ (connection_state s = Some ServerIssueFailed <->
      isConnected s = false /\ serverIssueDetected s = true
      /\ isAttemptingReconnect s = false)
  /\ (connection_state s = Some Reconnecting <->
      isConnected s = false /\ serverIssueDetected s = false
      /\ isAttemptingReconnect s = true)
  /\ (connection_state s = Some Disconnected <->
      isConnected s = false /\ serverIssueDetected s = false
      /\ isAttemptingReconnect s = false)
  /\ connection_state s <> Some Connecting
  /\ message s <> "Connecting to server...".
Proof.
  destruct s as [[] m [] []]; cbn;
    repeat split; intros; try discriminate; try reflexivity;
    repeat match goal with H : _ /\ _ |- _ => destruct H end;
    discriminate.
Qed.

Lemma modal_covers_step (e : Event) (s : AppState) :
  modal_covers s -> modal_covers (step e s).
Proof.
  unfold modal_covers. destruct s as [c m a i].
  destruct e as [|reason| | | |valid|socket|ok|]; simpl; auto.
  - unfold on_disconnect; simpl.
    destruct (String.eqb reason "io client disconnect"); simpl; auto.
    destruct (String.eqb reason "transport error"
              || String.eqb reason "ping timeout"); simpl; auto.
  - destruct valid; simpl; auto; discriminate.
  - destruct socket as [[]|]; simpl; auto.
  - destruct ok; simpl; auto; discriminate.
Qed.

Lemma modal_covers_run (es : list Event) (s : AppState) :
  modal_covers s -> modal_covers (run es s).
Proof.
  revert s. induction es as [|e es IH]; intros s H; simpl; [exact H|].
  apply IH, modal_covers_step, H.
Qed.

(** X2: after any sequence of events, starting from the initial state, the
    Retry button is on screen exactly when the client is not marked
    connected: no handler hides the modal without marking the client
    connected, and none marks it disconnected without showing the modal. *)
Theorem retry_always_offered (es : list Event) :
  let s := run es initialApp in
  retry_shown s = negb (isConnected s)
  /\ (ConnectionStatus s = None -> isConnected s = true).
Proof.
  cbv zeta.
  assert (modal_covers (run es initialApp)) as H
    by (apply modal_covers_run; intros _; reflexivity).
  unfold modal_covers in H.
  rewrite retry_shown_spec. unfold ConnectionStatus.
  destruct (run es initialApp) as [[] [] a i]; simpl in *; split; auto;
    try discriminate; specialize (H eq_refl); discriminate.
Qed.

(** X3: what a disconnect leads to, by its reason: Disconnected for the
    client's own disconnect; ServerIssueRetrying for a transport error or a
    ping timeout, and for any other reason when the server-issue flag was
    already set; Reconnecting otherwise.  The modal with the Retry button
    is shown in every case. *)
Theorem disconnect_by_reason (reason : string) (s : AppState) :
  let s' := step (channel_closed reason) s in
  retry_shown s' = true
  /\ connection_state s' =
     Some (if String.eqb reason "io client disconnect" then Disconnected
           else if String.eqb reason "transport error"
                   || String.eqb reason "ping timeout"
                   || serverIssueDetected s
           then ServerIssueRetrying
           else Reconnecting).
Proof.
  destruct s as [c m a i]. simpl. unfold on_disconnect. simpl.
  destruct (String.eqb reason "io client disconnect"); [split; reflexivity|].
  destruct (String.eqb reason "transport error"
            || String.eqb reason "ping timeout"); [split; reflexivity|].
  destruct i; split; reflexivity.
Qed.

(** X4: the server-issue flag is raised by [connect_error], by
    [reconnect_exhausted] and by a disconnect for a transport error or a
    ping timeout, and by nothing else. *)
Theorem server_issue_raised_by (e : Event) (s : AppState) :
  serverIssueDetected s = false ->
  serverIssueDetected (step e s) = true ->
  e = connect_error \/ e = reconnect_exhausted
  \/ e = channel_closed "transport error"
  \/ e = channel_closed "ping timeout".
Proof.
  destruct s as [c m a i]. simpl. intros ->.
  destruct e as [|reason| | | |valid|socket|ok|]; simpl; auto;
    try discriminate.
  - unfold on_disconnect; simpl.
    destruct (String.eqb reason "io client disconnect"); [discriminate|].
    destruct (String.eqb reason "transport error") eqn:E1.
    { apply String.eqb_eq in E1; subst; auto. }
    destruct (String.eqb reason "ping timeout") eqn:E2.
    { apply String.eqb_eq in E2; subst; auto. }
    discriminate.
  - destruct valid; discriminate.
  - destruct socket as [[]|]; discriminate.
  - destruct ok; discriminate.
Qed.

Lemma server_issue_raised_by_witness :
  serverIssueDetected mountedApp = false
  /\ serverIssueDetected (step (channel_closed "ping timeout") mountedApp)
     = true.
Proof.
  split; [reflexivity|].
  destruct (server_issue_raised_by (channel_closed "ping timeout") mountedApp
              eq_refl eq_refl) as [H|[H|[H|H]]];
    try discriminate H; reflexivity.
Defined.

(** X5: a shown modal is taken down only by [channel_opened], by a valid
    snapshot and by a successful refresh, each of which marks the client
    connected. *)
Theorem modal_hidden_by (e : Event) (s : AppState) :
  showConnectionModal s = true ->
  showConnectionModal (step e s) = false ->
  (e = channel_opened \/ e = data_received true \/ e = refresh_settled true)
  /\ isConnected (step e s) = true.
Proof.
  destruct s as [c m a i]. simpl. intros ->.
  destruct e as [|reason| | | |valid|socket|ok|]; simpl; auto;
    try discriminate.
  - unfold on_disconnect; simpl.
    destruct (String.eqb reason "io client disconnect"); [discriminate|].
    destruct (String.eqb reason "transport error"
              || String.eqb reason "ping timeout"); discriminate.
  - destruct valid; [auto|discriminate].
  - destruct socket as [[]|]; discriminate.
  - destruct ok; [auto|discriminate].
Qed.

Lemma modal_hidden_by_witness :
  showConnectionModal mountedApp = true
  /\ isConnected (step (data_received true) mountedApp) = true.
Proof.
  split; [reflexivity|].
  exact (proj2 (modal_hidden_by (data_received true) mountedApp
                  eq_refl eq_refl)).
Defined.

(** X6: once the automatic attempts are exhausted, a client that is not
    marked connected, whatever happened before, is shown the
    ServerIssueFailed message together with the Retry button. *)
Theorem exhausted_offers_retry (es : list Event) :
  isConnected (run es initialApp) = false ->
  ConnectionStatus (step reconnect_exhausted (run es initialApp)) =
    Some {| modal_message := state_message ServerIssueFailed;
            loader := true; retry_button := true |}.
Proof.
  intros Hc.
  assert (modal_covers (run es initialApp)) as H
    by (apply modal_covers_run; intros _; reflexivity).
  specialize (H Hc).
  destruct (run es initialApp) as [c m a i]. simpl in *. subst. reflexivity.
Qed.

Lemma exhausted_offers_retry_witness :
  connection_state
    (step reconnect_exhausted
          (run [mounted; channel_opened; channel_closed "transport close"]
               initialApp))
  = Some ServerIssueFailed.
Proof.
  pose proof (exhausted_offers_retry
                [mounted; channel_opened; channel_closed "transport close"]
                eq_refl) as H.
  unfold connection_state, ConnectionStatus in *. simpl in *.
  inversion H as [H1]. reflexivity.
Defined.

(** X7: a server-issue flag that survives a valid snapshot makes a later
    failed refresh display the ServerIssueFailed message, although no
    reconnection has failed since. *)
Theorem stale_flag_after_refresh (s : AppState) :
  serverIssueDetected s = true ->
  ConnectionStatus (run [data_received true; refresh_settled false] s) =
    Some {| modal_message := state_message ServerIssueFailed;
            loader := true; retry_button := true |}.
Proof. destruct s as [c m a i]. simpl. intros ->. reflexivity. Qed.

Lemma stale_flag_after_refresh_witness :
  connection_state
    (run [connect_error; data_received true; refresh_settled false] mountedApp)
  = Some ServerIssueFailed.
Proof.
  pose proof (stale_flag_after_refresh (step connect_error mountedApp) eq_refl)
    as H.
  unfold connection_state, ConnectionStatus in *. simpl in *.
  inversion H as [H1]. reflexivity.
Defined.

(** * Further properties of the reconciler *)

Section SignalFacts.

Lemma lt_num_l (a : JS.number) (v : JS.value) :
  JS.lt (JS.num a) v = JS.nltb a (JS.ToNumber v).
Proof. destruct v; reflexivity. Qed.

Lemma lt_num_r (v : JS.value) (a : JS.number) :
  JS.lt v (JS.num a) = JS.nltb (JS.ToNumber v) a.
Proof. destruct v; reflexivity. Qed.

Lemma nltb_nan_l (a : JS.number) : JS.nltb JS.NaN a = false.
Proof. reflexivity. Qed.

Lemma nltb_nan_r (a : JS.number) : JS.nltb a JS.NaN = false.
Proof. destruct a; reflexivity. Qed.

Lemma is_nan_eq (a : JS.number) : JS.is_nan a = true -> a = JS.NaN.
Proof. destruct a; simpl; intros H; [discriminate ..|reflexivity|discriminate]. Qed.

Lemma nsub_nan_r (a : JS.number) : JS.nsub a JS.NaN = JS.NaN.
Proof. destruct a; reflexivity. Qed.

Lemma ndiv_nan_r (a : JS.number) : JS.ndiv a JS.NaN = JS.NaN.
Proof. destruct a; reflexivity. Qed.

Lemma change_percent_of_eq (ltp close : JS.value) :
  change_percent_of ltp close =
  JS.nmul (JS.ndiv (JS.nsub (JS.ToNumber ltp) (JS.ToNumber close))
                   (JS.ToNumber close))
          (JS.of_Z 100).
Proof. reflexivity. Qed.

Lemma volatility_of_eq (high low close : JS.value) :
  volatility_of high low close =
  JS.nmul (JS.ndiv (JS.nsub (JS.ToNumber high) (JS.ToNumber low))
                   (JS.ToNumber close))
          (JS.of_Z 100).
Proof. reflexivity. Qed.

End SignalFacts.

(** X13: a quote whose [ltp], [close], [high] or [low] does not convert to
    a number (it is missing, a non-numeric string, or NaN) gets the signal
    HOLD, never BUY or SELL. *)
Theorem not_a_number_holds (ltp close high low : JS.value) :
  JS.is_nan (JS.ToNumber ltp) || JS.is_nan (JS.ToNumber close)
  || JS.is_nan (JS.ToNumber high) || JS.is_nan (JS.ToNumber low) = true ->
  trading_signal_of ltp close high low = HOLD.
Proof.
  intros H. rewrite trading_signal_of_cases. cbv zeta.
  rewrite !lt_num_r. unfold JS.gt. rewrite !lt_num_l. simpl JS.ToNumber.
  rewrite change_percent_of_eq, volatility_of_eq.
  apply orb_true_iff in H as [H|H]; [apply orb_true_iff in H as [H|H]|].
  - assert (JS.nsub (JS.ToNumber ltp) (JS.ToNumber close) = JS.NaN) as ->.
    { apply orb_true_iff in H as [H|H]; apply is_nan_eq in H; rewrite H;
        [reflexivity|apply nsub_nan_r]. }
    change (JS.nmul (JS.ndiv JS.NaN (JS.ToNumber close)) (JS.of_Z 100))
      with JS.NaN.
    rewrite nltb_nan_l, nltb_nan_r, !andb_false_r. reflexivity.
  - assert (JS.nsub (JS.ToNumber high) (JS.ToNumber low) = JS.NaN) as ->.
    { apply is_nan_eq in H; rewrite H. reflexivity. }
    change (JS.nmul (JS.ndiv JS.NaN (JS.ToNumber close)) (JS.of_Z 100))
      with JS.NaN.
    rewrite nltb_nan_l, !andb_false_r. reflexivity.
  - assert (JS.nsub (JS.ToNumber high) (JS.ToNumber low) = JS.NaN) as ->.
    { apply is_nan_eq in H; rewrite H. apply nsub_nan_r. }
    change (JS.nmul (JS.ndiv JS.NaN (JS.ToNumber close)) (JS.of_Z 100))
      with JS.NaN.
    rewrite nltb_nan_l, !andb_false_r. reflexivity.
Qed.

Lemma not_a_number_holds_witness :
  trading_signal_of (JS.str "abc") (JS.literal "100")
                    (JS.literal "102") (JS.literal "99") = HOLD.
Proof. apply not_a_number_holds. vm_compute. reflexivity. Defined.

(** X14: the divisions by [close] are unguarded.  For a quote whose close
    is the number 0 (of either sign), change_percent and volatility are
    NaN or an infinity, never a finite number; the signal is HOLD as soon
    as [high - low] is not negative, and always when close is -0. *)
Theorem zero_close (ltp high low : JS.value) (s : bool) :
  let close := JS.num (S754_zero s) in
  not_finite (change_percent_of ltp close) = true
  /\ not_finite (volatility_of high low close) = true
  /\ (JS.lt (JS.num (JS.sub high low)) (JS.num JS.pos_zero) = false ->
      trading_signal_of ltp close high low = HOLD)
  /\ (s = true -> trading_signal_of ltp close high low = HOLD).
Proof.
  cbv zeta. rewrite trading_signal_of_cases. cbv zeta.
  rewrite !lt_num_r. unfold JS.gt. rewrite !lt_num_l.
  rewrite change_percent_of_eq, volatility_of_eq.
  unfold JS.sub. simpl JS.ToNumber.
  generalize (JS.ToNumber ltp) as x.
  generalize (JS.nsub (JS.ToNumber high) (JS.ToNumber low)) as d.
  intros d x.
  change (binary_round JS.prec JS.emax false 100 0)
    with (S754_finite false 7036874417766400 (-46)).
  split; [destruct x as [[]|[]| |[] m e], s; reflexivity|].
  split; [destruct d as [[]|[]| |[] m e], s; reflexivity|].
  split.
  - destruct d as [[]|[]| |[] md ed]; try (intros H; cbv in H; discriminate H);
      intros _; destruct x as [[]|[]| |[] m e], s; reflexivity.
  - intros ->.
    destruct d as [[]|[]| |[] md ed], x as [[]|[]| |[] m e]; reflexivity.
Qed.

Lemma zero_close_witness :
  trading_signal_of (JS.literal "5") (JS.literal "0")
                    (JS.literal "7") (JS.literal "3") = HOLD
  /\ trading_signal_of (JS.literal "5") (JS.literal "-0")
                       (JS.literal "3") (JS.literal "7") = HOLD.
Proof.
  split.
  - destruct (zero_close (JS.literal "5") (JS.literal "7") (JS.literal "3")
                false) as (_ & _ & H & _).
    apply H. vm_compute. reflexivity.
  - destruct (zero_close (JS.literal "5") (JS.literal "3") (JS.literal "7")
                true) as (_ & _ & _ & H).
    apply H. reflexivity.
Defined.

(** With close +0 and [high < low] the unguarded division does give a
    signal. *)
Example zero_close_inverted_range :
  trading_signal_of (JS.literal "5") (JS.literal "0")
                    (JS.literal "3") (JS.literal "7") = BUY.
Proof. vm_compute. reflexivity. Qed.

Section FeedFacts.

Implicit Types (st : TableState) (md : gmap string Item.t).
Implicit Types (inputs : list ((string -> string) * option (gmap string Item.t))).

Lemma feed_cons (clock : string -> string) (m : option (gmap string Item.t))
    inputs st :
  feed ((clock, m) :: inputs) st = feed inputs (reconcile clock st m).
Proof. reflexivity. Qed.

Lemma feed_keys inputs st (acc : option (gmap string Item.t)) :
  dataWithDefaults st = prevDataRef st ->
  dom (dataWithDefaults st) = from_option dom ∅ acc ->
  dataWithDefaults (feed inputs st) = prevDataRef (feed inputs st)
  /\ dom (dataWithDefaults (feed inputs st)) =
     from_option dom ∅ (last_effective inputs acc).
Proof.
  revert st acc.
  induction inputs as [|[clock [md|]] inputs IH]; intros st acc Heq Hdom.
  - auto.
  - rewrite feed_cons. simpl last_effective. unfold reconcile.
    destruct (decide (md = ∅)); [apply IH; assumption|].
    apply IH; simpl; [reflexivity|apply processedData_dom].
  - rewrite feed_cons. apply IH; assumption.
Qed.

(** Every row of a table fed from the initial state was built by
    [processItem]. *)
Lemma feed_rows inputs st :
  (forall key r, dataWithDefaults st !! key = Some r ->
     exists now prevItem item, r = processItem now prevItem item) ->
  forall key r, dataWithDefaults (feed inputs st) !! key = Some r ->
    exists now prevItem item, r = processItem now prevItem item.
Proof.
  revert st. induction inputs as [|[clock [md|]] inputs IH]; intros st H.
  - exact H.
  - rewrite feed_cons. apply IH. unfold reconcile.
    destruct (decide (md = ∅)); [exact H|]. simpl.
    intros key r. rewrite processedData_lookup.
    destruct (md !! key) as [item|]; simpl; [|discriminate].
    intros [= <-]. eauto.
  - rewrite feed_cons. apply IH, H.
Qed.

Lemma initial_rows inputs key r :
  dataWithDefaults (feed inputs initialTable) !! key = Some r ->
  exists now prevItem item, r = processItem now prevItem item.
Proof.
  apply feed_rows. intros k r0 H. simpl in H.
  rewrite lookup_empty in H. discriminate.
Qed.

End FeedFacts.

(** X8: however many snapshots have been fed, the displayed rows and the
    rows kept for the next comparison are the same map, and its symbols are
    those of the last snapshot that was not empty or missing (none before
    the first such snapshot). *)
Theorem table_follows_last_snapshot
    (inputs : list ((string -> string) * option (gmap string Item.t))) :
  let st := feed inputs initialTable in
  dataWithDefaults st = prevDataRef st
  /\ dom (dataWithDefaults st) = from_option dom ∅ (last_effective inputs None).
Proof.
  apply feed_keys; [reflexivity|]. simpl. apply dom_empty_L.
Qed.

(** X9: no row of the table has a falsy symbol: an empty, missing or
    otherwise falsy symbol has been replaced by "UNKNOWN". *)
Theorem symbol_never_falsy
    (inputs : list ((string -> string) * option (gmap string Item.t)))
    (key : string) (r : Row.t) :
  dataWithDefaults (feed inputs initialTable) !! key = Some r ->
  JS.ToBoolean (Row.symbol r) = true
  /\ (Row.symbol r = JS.str "" -> False)
  /\ Row.symbol r <> JS.undefined /\ Row.symbol r <> JS.null.
Proof.
  intros H. apply initial_rows in H as (now & p & item & ->).
  assert (JS.ToBoolean (Row.symbol (processItem now p item)) = true) as Ht.
  { simpl. unfold JS.or.
    destruct (JS.ToBoolean (Item.symbol item)) eqn:E; [exact E|reflexivity]. }
  split; [exact Ht|].
  repeat split; intros E; rewrite E in Ht; discriminate.
Qed.

Lemma symbol_never_falsy_witness :
  exists r,
    dataWithDefaults
      (feed [(clock_a, Some {["X" := malformed_quote]})] initialTable) !! "X"
      = Some r
    /\ JS.ToBoolean (Row.symbol r) = true.
Proof.
  destruct (reconcile_lookup clock_a initialTable {["X" := malformed_quote]}
              "X" _ (lookup_singleton_eq _ _)) as [H _].
  eexists. split; [exact H|].
  exact (proj1 (symbol_never_falsy
                  [(clock_a, Some {["X" := malformed_quote]})] "X" _ H)).
Defined.

(** X10: the previous values kept in a row are never NaN and never -0:
    each is the value stored by the run before, or 0 when there was none
    or when that value was NaN or a zero. *)
Theorem prev_values_are_numbers
    (inputs : list ((string -> string) * option (gmap string Item.t)))
    (key : string) (r : Row.t) (f : Field.t) :
  dataWithDefaults (feed inputs initialTable) !! key = Some r ->
  JS.is_nan (Row.prev f r) = false
  /\ Row.prev f r <> S754_zero true.
Proof.
  intros H. apply initial_rows in H as (now & p & item & ->).
  assert (Row.prev f (processItem now p item) = prev_or_zero f p) as ->
    by (destruct f; reflexivity).
  unfold prev_or_zero, prevItem_get, JS.or. destruct p as [r0|]; simpl.
  - destruct (Row.get f r0) as [s|s| |s m e]; cbn;
      (split; [reflexivity|discriminate]).
  - split; [reflexivity|discriminate].
Qed.

Lemma prev_values_are_numbers_witness :
  exists r,
    dataWithDefaults
      (feed [(clock_a, Some {["X" := nan_quote]});
             (clock_b, Some {["X" := nan_quote]})] initialTable) !! "X"
      = Some r
    /\ Row.prev_ltp r = JS.pos_zero.
Proof.
  destruct (reconcile_lookup clock_b (first_run clock_a {["X" := nan_quote]})
              {["X" := nan_quote]} "X" _ (lookup_singleton_eq _ _)) as [H _].
  eexists. split; [exact H|].
  destruct (prev_values_are_numbers
              [(clock_a, Some {["X" := nan_quote]});
               (clock_b, Some {["X" := nan_quote]})] "X" _ Field.ltp H)
    as [Hn _].
  destruct (reconcile_lookup clock_a initialTable {["X" := nan_quote]}
              "X" _ (lookup_singleton_eq _ _)) as [_ Hp].
  change (Row.prev_ltp
            (processItem (clock_b "X")
               (prevDataRef (first_run clock_a {["X" := nan_quote]}) !! "X")
               nan_quote))
    with (prev_or_zero Field.ltp
            (prevDataRef (first_run clock_a {["X" := nan_quote]}) !! "X")).
  unfold first_run. rewrite Hp. reflexivity.
Defined.

Section OrderFacts.

Lemma neqb_sym (a b : JS.number) : JS.neqb a b = JS.neqb b a.
Proof.
  unfold JS.neqb, SFeqb. rewrite (SFcompare_swap b a).
  destruct (SFcompare b a) as [[]|]; reflexivity.
Qed.

Lemma SFcompare_total (a b : JS.number) :
  JS.is_nan a = false -> JS.is_nan b = false ->
  exists c, SFcompare a b = Some c.
Proof.
  destruct a as [sa|sa| |sa ma ea], b as [sb|sb| |sb mb eb]; simpl;
    intros Ha Hb; try discriminate; eauto.
Qed.

(** Two numbers other than NaN are equal or one is below the other. *)
Lemma number_trichotomy (a b : JS.number) :
  JS.is_nan a = false -> JS.is_nan b = false ->
  JS.neqb a b = false -> JS.nltb a b = false -> JS.nltb b a = true.
Proof.
  intros Ha Hb. destruct (SFcompare_total a b Ha Hb) as [c Hc].
  unfold JS.neqb, JS.nltb, SFeqb, SFltb.
  rewrite (SFcompare_swap a b), Hc. destruct c; simpl; congruence.
Qed.

End OrderFacts.

(** X11: for two consecutive snapshots that both give a field of a symbol
    as a number, the second row flags the field iff the two numbers
    differ, points up iff the number rose and, NaN apart, down iff it
    fell, with no direction iff it stayed. *)
Theorem consecutive_numbers (clock1 clock2 : string -> string)
    (st : TableState) (md1 md2 : gmap string Item.t) (key : string)
    (item1 item2 : Item.t) (f : Field.t) (n1 n2 : JS.number) :
  md1 !! key = Some item1 ->
  md2 !! key = Some item2 ->
  Item.get f item1 = JS.num n1 ->
  Item.get f item2 = JS.num n2 ->
  exists r,
    dataWithDefaults
      (reconcile clock2 (reconcile clock1 st (Some md1)) (Some md2)) !! key
      = Some r
    /\ Row.changed f r = negb (JS.neqb n2 n1)
    /\ (Row.direction f r = Some up <-> JS.nltb n1 n2 = true)
    /\ (JS.is_nan n1 = false -> JS.is_nan n2 = false ->
        (Row.direction f r = Some down <-> JS.nltb n2 n1 = true)
        /\ (Row.direction f r = None <-> JS.neqb n1 n2 = true)).
Proof.
  intros H1 H2 G1 G2.
  destruct (reconcile_lookup clock1 st md1 key item1 H1) as [_ Hp].
  destruct (reconcile_lookup clock2 (reconcile clock1 st (Some md1))
              md2 key item2 H2) as [Hr _].
  rewrite Hp in Hr. eexists. split; [exact Hr|].
  rewrite changed_processItem, direction_processItem.
  unfold prevItem_get. rewrite get_processItem, G1, G2.
  unfold number_or_zero. simpl JS.typeof_number. cbv iota.
  simpl JS.ToNumber. simpl JS.strict_eq. unfold JS.gt. rewrite lt_num_l.
  simpl JS.ToNumber.
  split; [reflexivity|]. split.
  - destruct (JS.nltb n1 n2) eqn:L.
    + rewrite (proj2 (nltb_neqb n1 n2 L)). simpl. tauto.
    + destruct (JS.neqb n2 n1); simpl; split; discriminate.
  - intros N1 N2. rewrite (neqb_sym n1 n2). split.
    + destruct (JS.neqb n2 n1) eqn:E; simpl.
      * split; [discriminate|].
        intros L. rewrite (proj1 (nltb_neqb n2 n1 L)) in E. discriminate.
      * destruct (JS.nltb n1 n2) eqn:L.
        -- split; [discriminate|]. intros L'.
           rewrite (nltb_asym n1 n2 L) in L'. discriminate.
        -- split; [intros _|reflexivity].
           apply number_trichotomy; try assumption.
           now rewrite neqb_sym.
    + destruct (JS.neqb n2 n1); simpl; split; congruence.
Qed.

Lemma consecutive_numbers_witness :
  exists r,
    dataWithDefaults
      (reconcile clock_b
         (reconcile clock_a initialTable (Some {["INFY" := sample_quote]}))
         (Some {["INFY" := quote "INFY" "1499" "1490" "1510" "1485" "1495" "120000"]}))
      !! "INFY" = Some r
    /\ Row.changed Field.ltp r = true.
Proof.
  destruct (consecutive_numbers clock_a clock_b initialTable
              {["INFY" := sample_quote]}
              {["INFY" := quote "INFY" "1499" "1490" "1510" "1485" "1495" "120000"]}
              "INFY" _ _ Field.ltp _ _
              (lookup_singleton_eq _ _) (lookup_singleton_eq _ _)
              eq_refl eq_refl) as (r & Hr & Hc & _).
  exists r. split; [exact Hr|]. rewrite Hc. vm_compute. reflexivity.
Defined.

(** X12: nothing older than the last snapshot is remembered.  A symbol
    that a (non-empty) snapshot lacks and a later one brings back is
    treated as new: its previous values are 0, its signal counts as
    changed, and every field it has is flagged as changed, pointing
    down. *)
Theorem reappearing_symbol_is_new (clock2 clock3 : string -> string)
    (st : TableState) (md2 md3 : gmap string Item.t) (key : string)
    (item : Item.t) :
  md2 <> ∅ ->
  md2 !! key = None ->
  md3 !! key = Some item ->
  exists r,
    dataWithDefaults
      (reconcile clock3 (reconcile clock2 st (Some md2)) (Some md3)) !! key
      = Some r
    /\ r = processItem (clock3 key) None item
    /\ Row.signal_changed r = true
    /\ forall f,
        Row.prev f r = JS.pos_zero
        /\ (Item.get f item <> JS.undefined ->
            Row.changed f r = true /\ Row.direction f r = Some down).
Proof.
  intros Hne Hk H3.
  destruct (reconcile_lookup clock3 (reconcile clock2 st (Some md2))
              md3 key item H3) as [Hr _].
  rewrite (reconcile_nonempty clock2 st md2 Hne) in Hr at 2.
  simpl prevDataRef in Hr. rewrite processedData_lookup, Hk in Hr.
  simpl in Hr. eexists. split; [exact Hr|]. split; [reflexivity|].
  split; [reflexivity|]. intros f.
  split; [destruct f; reflexivity|].
  rewrite changed_processItem, direction_processItem. simpl prevItem_get.
  intros Hv.
  assert (JS.strict_eq (Item.get f item) JS.undefined = false) as ->
    by (destruct (Item.get f item); simpl; congruence).
  unfold JS.gt. destruct (Item.get f item); split; reflexivity.
Qed.

Lemma reappearing_symbol_is_new_witness :
  exists r,
    dataWithDefaults
      (reconcile clock_b
         (reconcile clock_a (first_run clock_a {["INFY" := sample_quote]})
                    (Some {["TCS" := quote_without_volume]}))
         (Some {["INFY" := sample_quote]})) !! "INFY" = Some r
    /\ Row.prev_ltp r = JS.pos_zero
    /\ Row.ltp_changed r = true.
Proof.
  assert (({["TCS" := quote_without_volume]} : gmap string Item.t) <> ∅)
    as Hne by (apply (lookup_nonempty _ "TCS" quote_without_volume),
               lookup_singleton_eq).
  assert (({["TCS" := quote_without_volume]} : gmap string Item.t) !! "INFY"
          = None) as Hk by (apply lookup_singleton_ne; discriminate).
  destruct (reappearing_symbol_is_new clock_a clock_b
              (first_run clock_a {["INFY" := sample_quote]})
              {["TCS" := quote_without_volume]} {["INFY" := sample_quote]}
              "INFY" sample_quote Hne Hk (lookup_singleton_eq _ _))
    as (r & Hr & _ & _ & Hf).
  exists r. split; [exact Hr|].
  destruct (Hf Field.ltp) as [Hp Hc].
  split; [exact Hp|]. apply Hc. discriminate.
Defined.

(** X15: across two consecutive snapshots, the signal of a symbol is
    flagged as changed exactly when the two quotes classify differently;
    the prices may move without the flag as long as the class stays. *)
Theorem signal_changed_iff (clock1 clock2 : string -> string)
    (st : TableState) (md1 md2 : gmap string Item.t) (key : string)
    (item1 item2 : Item.t) :
  md1 !! key = Some item1 ->
  md2 !! key = Some item2 ->
  exists r,
    dataWithDefaults
      (reconcile clock2 (reconcile clock1 st (Some md1)) (Some md2)) !! key
      = Some r
    /\ (Row.signal_changed r = true <->
        trading_signal_of (Item.ltp item2) (Item.close item2)
                          (Item.high item2) (Item.low item2)
        <> trading_signal_of (Item.ltp item1) (Item.close item1)
                             (Item.high item1) (Item.low item1)).
Proof.
  intros H1 H2.
  destruct (reconcile_lookup clock1 st md1 key item1 H1) as [_ Hp].
  destruct (reconcile_lookup clock2 (reconcile clock1 st (Some md1))
              md2 key item2 H2) as [Hr _].
  rewrite Hp in Hr. eexists. split; [exact Hr|].
  change (Row.signal_changed (processItem (clock2 key)
            (Some (processItem (clock1 key) (prevDataRef st !! key) item1))
            item2))
    with (negb (Signal_eqb
                  (trading_signal_of (Item.ltp item1) (Item.close item1)
                                     (Item.high item1) (Item.low item1))
                  (trading_signal_of (Item.ltp item2) (Item.close item2)
                                     (Item.high item2) (Item.low item2)))).
  destruct (trading_signal_of (Item.ltp item1) _ _ _),
           (trading_signal_of (Item.ltp item2) _ _ _); simpl;
    split; congruence.
Qed.

Lemma signal_changed_iff_witness :
  exists r,
    dataWithDefaults
      (reconcile clock_b
         (reconcile clock_a initialTable (Some {["INFY" := sample_quote]}))
         (Some {["INFY" := quote "INFY" "1499" "1490" "1510" "1485" "1495" "120000"]}))
      !! "INFY" = Some r
    /\ Row.signal_changed r = false.
Proof.
  destruct (signal_changed_iff clock_a clock_b initialTable
              {["INFY" := sample_quote]}
              {["INFY" := quote "INFY" "1499" "1490" "1510" "1485" "1495" "120000"]}
              "INFY" _ _
              (lookup_singleton_eq _ _) (lookup_singleton_eq _ _))
    as (r & Hr & Hs).
  exists r. split; [exact Hr|].
  destruct (Row.signal_changed r); [|reflexivity].
  exfalso. apply (proj1 Hs eq_refl). vm_compute. reflexivity.
Defined.

(** * Properties of the table view *)

Section StringFacts.

Lemma append_cons (c : ascii) (t b : string) :
  (String c t ++ b)%string = String c (t ++ b)%string.
Proof. reflexivity. Qed.

Lemma append_empty (b : string) : ("" ++ b)%string = b.
Proof. reflexivity. Qed.

Lemma prefix_spec (t s : string) :
  String.prefix t s = true <-> exists b, s = (t ++ b)%string.
Proof.
  revert s. induction t as [|c t IH]; intros s.
  - destruct s; simpl; split; eauto.
  - destruct s as [|c' s]; simpl.
    + split; [discriminate|intros [b Hb]; rewrite append_cons in Hb;
                            discriminate].
    + destruct (Ascii.ascii_dec c c') as [->|Hne].
      * rewrite IH. split; intros [b Hb]; exists b;
          rewrite append_cons in *; congruence.
      * split; [discriminate|].
        intros [b Hb]. rewrite append_cons in Hb. congruence.
Qed.

Lemma includes_spec (t s : string) :
  includes t s = true <-> exists a b, s = (a ++ t ++ b)%string.
Proof.
  induction s as [|c s IH]; cbn [includes].
  - rewrite orb_false_r, prefix_spec. split.
    + intros [b Hb]. exists ""%string, b. exact Hb.
    + intros (a & b & H). destruct a as [|c a].
      * rewrite append_empty in H. eauto.
      * rewrite append_cons in H. discriminate.
  - rewrite orb_true_iff, prefix_spec, IH. split.
    + intros [[b Hb]|(a & b & H)].
      * exists ""%string, b. exact Hb.
      * exists (String c a), b. rewrite append_cons. congruence.
    + intros (a & b & H). destruct a as [|c' a].
      * rewrite append_empty in H. left. eauto.
      * rewrite append_cons in H. right. exists a, b. congruence.
Qed.

Lemma toLowerCase_unit_idem (c : ascii) :
  toLowerCase_unit (toLowerCase_unit c) = toLowerCase_unit c.
Proof. destruct c as [[] [] [] [] [] [] [] []]; reflexivity. Qed.

Lemma toLowerCase_idem (s : string) :
  toLowerCase (toLowerCase s) = toLowerCase s.
Proof.
  induction s as [|c s IH]; simpl; [reflexivity|].
  now rewrite toLowerCase_unit_idem, IH.
Qed.

Lemma toLowerCase_empty (s : string) :
  String.eqb (toLowerCase s) "" = String.eqb s "".
Proof. destruct s; reflexivity. Qed.

End StringFacts.

(** X16: the filter raises exactly when a search term is typed and the
    row's symbol is not a string.  Since reconciliation keeps any truthy
    symbol as it is, a quote with, say, a numeric symbol makes every
    non-empty search fail. *)
Theorem filter_raises_iff (filterSignal searchTerm : string) :
  (forall r,
      filter_callback filterSignal searchTerm r = None <->
      searchTerm <> ""%string /\ forall sym, Row.symbol r <> JS.str sym)
  /\ (forall now prevItem item,
        JS.ToBoolean (Item.symbol item) = true ->
        (forall sym, Item.symbol item <> JS.str sym) ->
        searchTerm <> ""%string ->
        filter_callback filterSignal searchTerm
                        (processItem now prevItem item) = None).
Proof.
  assert (forall r,
             filter_callback filterSignal searchTerm r = None <->
             searchTerm <> ""%string /\ forall sym, Row.symbol r <> JS.str sym)
    as Hr.
  { intros r. unfold filter_callback.
    destruct (String.eqb searchTerm "") eqn:Et.
    - apply String.eqb_eq in Et. split.
      + destruct (JS.strict_eq _ _); discriminate.
      + intros [Hn _]. contradiction.
    - apply String.eqb_neq in Et.
      destruct (Row.symbol r) as [| |b|n|sym]; simpl.
      1-4: split; [intros _; split; [exact Et|intros; discriminate]
                  |reflexivity].
      destruct (String.eqb sym "NIFTY50-INDEX");
        (split; [discriminate|]);
        intros [_ Hs]; exfalso; apply (Hs sym); reflexivity. }
  split; [exact Hr|].
  intros now p item Ht Hs Hn. apply Hr. split; [exact Hn|].
  simpl. unfold JS.or. rewrite Ht. exact Hs.
Qed.

Lemma filter_raises_iff_witness :
  filter_callback "all" "inf"
    (processItem "now" None
       {| Item.symbol := JS.literal "42"; Item.ltp := JS.literal "1";
          Item.open := JS.literal "1"; Item.high := JS.literal "1";
          Item.low := JS.literal "1"; Item.close := JS.literal "1";
          Item.volume := JS.literal "1"; Item.timestamp := JS.undefined |})
  = None.
Proof.
  apply (proj2 (filter_raises_iff "all" "inf")).
  - vm_compute. reflexivity.
  - intros sym. discriminate.
  - discriminate.
Defined.

(** X17: a row whose symbol is a string is kept by the filter exactly when
    the symbol is not "NIFTY50-INDEX" (compared as it is, so that another
    spelling of it is kept), its signal is the selected one or the
    selection is "all", and the lower-cased search term occurs in the
    lower-cased symbol. *)
Theorem filter_keeps_iff (filterSignal searchTerm : string) (r : Row.t)
    (sym : string) :
  Row.symbol r = JS.str sym ->
  exists b,
    filter_callback filterSignal searchTerm r = Some b
    /\ (b = true <->
        sym <> "NIFTY50-INDEX"%string
        /\ (filterSignal = "all"%string
            \/ Signal_name (Row.trading_signal r) = filterSignal)
        /\ exists x y,
            toLowerCase sym = (x ++ toLowerCase searchTerm ++ y)%string).
Proof.
  intros Hs. unfold filter_callback. rewrite Hs. simpl JS.strict_eq.
  destruct (String.eqb sym "NIFTY50-INDEX") eqn:Ei.
  { apply String.eqb_eq in Ei. eexists. split; [reflexivity|].
    split; [discriminate|]. intros [Hn _]. contradiction. }
  apply String.eqb_neq in Ei.
  assert ((if String.eqb searchTerm "" then Some true
           else Some (includes (toLowerCase searchTerm) (toLowerCase sym)))
          = Some (includes (toLowerCase searchTerm) (toLowerCase sym))) as ->.
  { destruct (String.eqb searchTerm "") eqn:Et; [|reflexivity].
    apply String.eqb_eq in Et. subst. simpl.
    destruct (toLowerCase sym); reflexivity. }
  eexists. split; [reflexivity|].
  rewrite andb_true_iff, orb_true_iff, includes_spec, !String.eqb_eq.
  tauto.
Qed.

Lemma filter_keeps_iff_witness :
  filter_callback "HOLD" "nfy" (processItem "now" None sample_quote)
  = Some true.
Proof.
  destruct (filter_keeps_iff "HOLD" "nfy" (processItem "now" None sample_quote)
              "INFY" eq_refl) as (b & Hb & Hiff).
  rewrite Hb. f_equal. apply Hiff.
  split; [discriminate|]. split; [right; vm_compute; reflexivity|].
  exists "i"%string, ""%string. reflexivity.
Defined.

(** X18: the search ignores case on both sides: the lower-cased term gives
    the same result as the term, and two rows with the same signal whose
    symbols differ only in case, neither being "NIFTY50-INDEX", are kept
    or dropped together. *)
Theorem search_ignores_case (filterSignal searchTerm : string) :
  (forall r,
      filter_callback filterSignal (toLowerCase searchTerm) r =
      filter_callback filterSignal searchTerm r)
  /\ (forall r1 r2 sym1 sym2,
        Row.symbol r1 = JS.str sym1 ->
        Row.symbol r2 = JS.str sym2 ->
        toLowerCase sym1 = toLowerCase sym2 ->
        sym1 <> "NIFTY50-INDEX"%string ->
        sym2 <> "NIFTY50-INDEX"%string ->
        Row.trading_signal r1 = Row.trading_signal r2 ->
        filter_callback filterSignal searchTerm r1 =
        filter_callback filterSignal searchTerm r2).
Proof.
  split.
  - intros r. unfold filter_callback.
    rewrite toLowerCase_empty, toLowerCase_idem. reflexivity.
  - intros r1 r2 sym1 sym2 H1 H2 Hl N1 N2 Hs.
    unfold filter_callback. rewrite H1, H2, Hs, Hl. simpl JS.strict_eq.
    apply String.eqb_neq in N1, N2. rewrite N1, N2. reflexivity.
Qed.

Lemma search_ignores_case_witness :
  filter_callback "all" "Infy" (processItem "now" None sample_quote)
  = filter_callback "all" "INFY"
      (processItem "now" None
         (quote "infy" "1500.5" "1490" "1510" "1485" "1495" "120000")).
Proof.
  destruct (search_ignores_case "all" "Infy") as [H1 H2].
  rewrite <- H1.
  destruct (search_ignores_case "all" "INFY") as [H3 _].
  rewrite <- (H3 (processItem "now" None
                    (quote "infy" "1500.5" "1490" "1510" "1485" "1495" "120000"))).
  apply (proj2 (search_ignores_case "all" "infy")
           _ _ "INFY"%string "infy"%string);
    try reflexivity; discriminate.
Defined.

(** X19: in every row of the table, a cell of the six value columns is
    highlighted exactly when it shows an arrow, and the Change and Change%
    cells are never highlighted and never show an arrow, whatever their
    values do: the props they read exist on no row. *)
Theorem highlight_iff_arrow
    (inputs : list ((string -> string) * option (gmap string Item.t)))
    (key : string) (r : Row.t) (c : Column) :
  dataWithDefaults (feed inputs initialTable) !! key = Some r ->
  let p := column_props c r in
  (changedClass p = "value-changed"%string <-> ValueCell_indicator p <> None)
  /\ (changedClass p = ""%string <-> directionClass p = ""%string)
  /\ ((forall f, c <> col_field f) ->
      ValueCell_className p = ("value-cell   " ++ valueClass p)%string).
Proof.
  intros H. apply initial_rows in H as (now & pr & item & ->). cbv zeta.
  destruct c as [f| |].
  - unfold changedClass, ValueCell_indicator, directionClass, column_props.
    cbn [cell_changed cell_direction].
    rewrite changed_processItem, direction_processItem.
    destruct (JS.strict_eq _ _); simpl;
      [|destruct (JS.gt _ _)]; repeat split; intros; try discriminate;
      try congruence.
    all: try (exfalso; eapply (H f); reflexivity).
  - split; [split; [discriminate|intros H; exfalso; apply H; reflexivity]|].
    split; [split; reflexivity|]. intros _. reflexivity.
  - split; [split; [discriminate|intros H; exfalso; apply H; reflexivity]|].
    split; [split; reflexivity|]. intros _. reflexivity.
Qed.

Lemma highlight_iff_arrow_witness :
  exists r,
    dataWithDefaults
      (feed [(clock_a, Some {["INFY" := sample_quote]})] initialTable)
      !! "INFY" = Some r
    /\ changedClass (column_props (col_field Field.ltp) r) = "value-changed"%string
    /\ ValueCell_indicator (column_props (col_field Field.ltp) r) = Some down.
Proof.
  destruct (reconcile_lookup clock_a initialTable {["INFY" := sample_quote]}
              "INFY" _ (lookup_singleton_eq _ _)) as [H _].
  eexists. split; [exact H|].
  destruct (highlight_iff_arrow
              [(clock_a, Some {["INFY" := sample_quote]})] "INFY" _
              (col_field Field.ltp) H) as [Hi _].
  split; [apply Hi; discriminate|reflexivity].
Defined.

Section ColourFacts.

Lemma above_one_positive (x : JS.number) :
  JS.nltb (JS.of_Z 1) x = true -> JS.nltb JS.pos_zero x = true.
Proof.
  change (JS.of_Z 1) with (S754_finite false 4503599627370496 (-52)).
  destruct x as [[]|[]| |[] m e]; intros H; try reflexivity;
    cbv in H; discriminate H.
Qed.

Lemma below_minus_one_negative (x : JS.number) :
  JS.nltb x (JS.of_Z (-1)) = true -> JS.nltb x JS.pos_zero = true.
Proof.
  change (JS.of_Z (-1)) with (S754_finite true 4503599627370496 (-52)).
  destruct x as [[]|[]| |[] m e]; intros H; try reflexivity;
    cbv in H; discriminate H.
Qed.

End ColourFacts.

(** X20: signal and colour agree.  In every row of the table with the
    signal BUY the Change% cell carries the class "positive-value", and
    with the signal SELL the class "negative-value". *)
Theorem signal_colours_change_percent
    (inputs : list ((string -> string) * option (gmap string Item.t)))
    (key : string) (r : Row.t) :
  dataWithDefaults (feed inputs initialTable) !! key = Some r ->
  (Row.trading_signal r = BUY ->
   valueClass (column_props col_change_percent r) = "positive-value"%string)
  /\ (Row.trading_signal r = SELL ->
      valueClass (column_props col_change_percent r) = "negative-value"%string).
Proof.
  intros H. apply initial_rows in H as (now & p & item & ->).
  unfold valueClass, column_props. cbn [cell_isChangeColumn cell_value].
  change (Row.change_percent (processItem now p item))
    with (change_percent_of (Item.ltp item) (Item.close item)).
  change (Row.trading_signal (processItem now p item))
    with (trading_signal_of (Item.ltp item) (Item.close item)
                            (Item.high item) (Item.low item)).
  rewrite trading_signal_of_cases. cbv zeta.
  set (cp := change_percent_of (Item.ltp item) (Item.close item)).
  change (JS.gt (JS.num cp) (JS.num (JS.of_Z 1)))
    with (JS.nltb (JS.of_Z 1) cp).
  change (JS.gt (JS.num cp) (JS.num JS.pos_zero))
    with (JS.nltb JS.pos_zero cp).
  change (JS.lt (JS.num cp) (JS.num (JS.of_Z (-1))))
    with (JS.nltb cp (JS.of_Z (-1))).
  change (JS.lt (JS.num cp) (JS.num JS.pos_zero))
    with (JS.nltb cp JS.pos_zero).
  destruct (JS.gt (Item.ltp item) (Item.close item)),
           (JS.lt (JS.num (volatility_of _ _ _)) _),
           (JS.nltb (JS.of_Z 1) cp) eqn:E1,
           (JS.nltb cp (JS.of_Z (-1))) eqn:E2;
    simpl; split; intros Hs; try discriminate Hs.
  all: try (rewrite (above_one_positive cp E1); reflexivity).
  all: pose proof (below_minus_one_negative cp E2) as E3;
    rewrite E3, (nltb_asym _ _ E3); reflexivity.
Qed.

Lemma signal_colours_change_percent_witness :
  exists r,
    dataWithDefaults
      (feed [(clock_a,
              Some {["INFY" := quote "INFY" "101.0001" "100" "102" "99" "100" "1"]})]
            initialTable) !! "INFY" = Some r
    /\ valueClass (column_props col_change_percent r) = "positive-value"%string.
Proof.
  destruct (reconcile_lookup clock_a initialTable
              {["INFY" := quote "INFY" "101.0001" "100" "102" "99" "100" "1"]}
              "INFY" _ (lookup_singleton_eq _ _)) as [H _].
  eexists. split; [exact H|].
  apply (signal_colours_change_percent
           [(clock_a,
             Some {["INFY" := quote "INFY" "101.0001" "100" "102" "99" "100" "1"]})]
           "INFY" _ H).
  vm_compute. reflexivity.
Defined.
